(** * OpenZWave logging front end (src/platform/Log.cpp)

    A shallow embedding of the static [Log] class: the singleton pointer
    [s_instance], the static sink vector [m_pImpls], the file-level flag
    [s_dologging], and the static member functions that operate on them.
    Calls that leave the translation unit (the mutex, the virtual methods of
    [i_LogImpl], [new] and [delete]) are recorded as events, in the order in
    which the code performs them. *)

From Stdlib Require Import List String Ascii ZArith Bool Arith Lia.
From Stdlib Require Import Strings.Byte.
Import ListNotations.

(** ** Log levels *)

(** Modelled from the spec: the [LogLevel] enumeration is declared in Log.h,
    which is not part of the sources at hand.  Its enumerators and their
    order are those of section 6 of the specification, which are also the
    entries of the [LogLevelString] table of Log.cpp (indexed by the
    enumerator's value). *)
Inductive LogLevel : Type :=
| LogLevel_Invalid
| LogLevel_None
| LogLevel_Always
| LogLevel_Fatal
| LogLevel_Error
| LogLevel_Warning
| LogLevel_Alert
| LogLevel_Info
| LogLevel_Detail
| LogLevel_Debug
| LogLevel_StreamDetail
| LogLevel_Internal.

(** The integral value of an enumerator: its index in [LogLevelString]. *)
Definition LogLevel_value (l : LogLevel) : Z :=
  match l with
  | LogLevel_Invalid => 0
  | LogLevel_None => 1
  | LogLevel_Always => 2
  | LogLevel_Fatal => 3
  | LogLevel_Error => 4
  | LogLevel_Warning => 5
  | LogLevel_Alert => 6
  | LogLevel_Info => 7
  | LogLevel_Detail => 8
  | LogLevel_Debug => 9
  | LogLevel_StreamDetail => 10
  | LogLevel_Internal => 11
  end%Z.

Definition LogLevelString (l : LogLevel) : string :=
  match l with
  | LogLevel_Invalid => "Invalid"
  | LogLevel_None => "None"
  | LogLevel_Always => "Always"
  | LogLevel_Fatal => "Fatal"
  | LogLevel_Error => "Error"
  | LogLevel_Warning => "Warning"
  | LogLevel_Alert => "Alert"
  | LogLevel_Info => "Info"
  | LogLevel_Detail => "Detail"
  | LogLevel_Debug => "Debug"
  | LogLevel_StreamDetail => "StreamDetail"
  | LogLevel_Internal => "Internal"
  end%string.

(** [a > b] and [a != b] on enumerators compare their integral values. *)
Definition LogLevel_gtb (a b : LogLevel) : bool :=
  (LogLevel_value b <? LogLevel_value a)%Z.

Definition LogLevel_neqb (a b : LogLevel) : bool :=
  negb (LogLevel_value a =? LogLevel_value b)%Z.

(** ** Handles, events and the global state *)

(** Heap objects are known by their address. *)
Definition addr : Type := nat.

(** One argument of a variadic call. *)
Inductive vararg : Type :=
| VInt (z : Z)
| VStr (s : string).

Definition va_list : Type := list vararg.

(** What the code does to objects that live outside Log.cpp. *)
Inductive event : Type :=
| Mutex_new (m : addr)
| Mutex_Lock (m : addr)
| Mutex_Unlock (m : addr)
| Mutex_Release (m : addr)
| LogImpl_new (p : addr) (filename : string) (bAppend bConsoleOutput : bool)
              (saveLevel : LogLevel)
| Impl_delete (p : addr)
| Impl_Write (p : addr) (level : LogLevel) (nodeId : byte) (format : string)
             (args : va_list)
| Impl_SetLoggingState (p : addr) (saveLevel : LogLevel)
| Impl_SetLogFileName (p : addr) (filename : string).

(** The non-static part of a [Log] object. *)
Record Log : Type := mkLog { m_logMutex : addr }.

(** The statics of Log.cpp, and the allocator's next free address. *)
Record World : Type := mkWorld {
  s_instance : option Log;
  m_pImpls : list addr;
  s_dologging : bool;
  brk : addr
}.

(** The state at program start: statics are zero-initialised. *)
Definition startup : World := mkWorld None [] false 0.

(** ** A state-and-trace monad *)

Definition M (A : Type) : Type := World -> A * World * list event.

Definition ret {A} (a : A) : M A := fun w => (a, w, []).

Definition bind {A B} (m : M A) (k : A -> M B) : M B :=
  fun w =>
    let '(a, w1, t1) := m w in
    let '(b, w2, t2) := k a w1 in
    (b, w2, t1 ++ t2).

Declare Scope log_scope.
Delimit Scope log_scope with log.
Notation "x <- c1 ;; c2" := (bind c1 (fun x => c2))
  (at level 61, c1 at next level, right associativity) : log_scope.
Notation "c1 ;; c2" := (bind c1 (fun _ => c2))
  (at level 61, right associativity) : log_scope.
Open Scope log_scope.

Definition get : M World := fun w => (w, w, []).
Definition emit (e : event) : M unit := fun w => (tt, w, [e]).

Definition set_instance (i : option Log) : M unit :=
  fun w => (tt, mkWorld i (m_pImpls w) (s_dologging w) (brk w), []).
Definition set_impls (l : list addr) : M unit :=
  fun w => (tt, mkWorld (s_instance w) l (s_dologging w) (brk w), []).
Definition set_dologging (b : bool) : M unit :=
  fun w => (tt, mkWorld (s_instance w) (m_pImpls w) b (brk w), []).

(** [new]: hands out the next free address. *)
Definition new : M addr :=
  fun w => (brk w, mkWorld (s_instance w) (m_pImpls w) (s_dologging w) (S (brk w)), []).

(** [m_pImpls.push_back(p)] *)
Definition push_back (p : addr) : M unit :=
  w <- get ;; set_impls (m_pImpls w ++ [p]).

(** What a computation returns, the state it leaves, and what it did. *)
Definition value {A} (m : M A) (w : World) : A := fst (fst (m w)).
Definition exec {A} (m : M A) (w : World) : World := snd (fst (m w)).
Definition emitted {A} (m : M A) (w : World) : list event := snd (m w).

(** ** Loops over the sink vector *)

(** [for (it = begin(); it != end(); it++) { body; }] for a body that does
    not resize the vector. *)
Fixpoint for_each (body : addr -> M unit) (l : list addr) : M unit :=
  match l with
  | [] => ret tt
  | p :: rest => body p ;; for_each body rest
  end.

(** [for (it = begin(); it != end();) { lc = *it; delete lc; it = erase(it); }]
    The iterator starts at the front and [erase] returns the position after
    the erased element, so every round deletes and drops the front element. *)
Fixpoint erase_loop (l : list addr) : M unit :=
  match l with
  | [] => ret tt
  | lc :: rest => emit (Impl_delete lc) ;; set_impls rest ;; erase_loop rest
  end.

Definition delete_all_impls : M unit :=
  w <- get ;; erase_loop (m_pImpls w).

(** ** The member functions *)

(** [Log::Log]: the mutex is made by the member initialiser, then the default
    sink is added when the (static) vector is empty. *)
Definition Log_ctor (filename : string) (bAppend bConsoleOutput : bool)
    (saveLevel : LogLevel) : M Log :=
  m <- new ;;
  emit (Mutex_new m) ;;
  w <- get ;;
  (if (List.length (m_pImpls w) =? 0)%nat then
     p <- new ;;
     emit (LogImpl_new p filename bAppend bConsoleOutput saveLevel) ;;
     push_back p
   else ret tt) ;;
  ret (mkLog m).

(** [Log::~Log] *)
Definition Log_dtor (this : Log) : M unit :=
  emit (Mutex_Release (m_logMutex this)) ;;
  delete_all_impls.

(** [Log::Destroy]: [delete] runs the destructor for a non-null pointer only. *)
Definition Destroy : M unit :=
  w <- get ;;
  match s_instance w with
  | Some this => Log_dtor this
  | None => ret tt
  end ;;
  set_instance None.

(** [Log::Create] *)
Definition Create (filename : string) (bAppend bConsoleOutput : bool)
    (saveLevel : LogLevel) : M (option Log) :=
  w <- get ;;
  match s_instance w with
  | None =>
      l <- Log_ctor filename bAppend bConsoleOutput saveLevel ;;
      set_instance (Some l) ;;
      set_dologging true
  | Some _ =>
      Destroy ;;
      l <- Log_ctor filename bAppend bConsoleOutput saveLevel ;;
      set_instance (Some l) ;;
      set_dologging true
  end ;;
  w' <- get ;;
  ret (s_instance w').

(** [Log::SetLoggingClass].  [m_pImpls] is a static member, so reaching it
    through [s_instance->] does not read the instance. *)
Definition SetLoggingClass (LogClass : addr) (Append : bool) : M bool :=
  (if negb Append then delete_all_impls else ret tt) ;;
  push_back LogClass ;;
  ret true.

(** [if (s_instance && s_dologging && (s_instance->m_pImpls.size() > 0))] *)
Definition when_active (body : Log -> M unit) : M unit :=
  w <- get ;;
  match s_instance w with
  | Some this =>
      if s_dologging w && (0 <? List.length (m_pImpls w))%nat
      then body this
      else ret tt
  | None => ret tt
  end.

Definition newline : string := String (ascii_of_nat 10) EmptyString.
Definition Logging_started : string :=
  ("Logging started" ++ newline ++ newline)%string.

(** [Log::Write(LogLevel, char const*, ...)] *)
Definition Write (level : LogLevel) (format : string) (args : va_list) : M unit :=
  when_active (fun this =>
    emit (Mutex_Lock (m_logMutex this)) ;;
    w <- get ;;
    for_each (fun it => emit (Impl_Write it level x00 format args)) (m_pImpls w) ;;
    emit (Mutex_Unlock (m_logMutex this))).

(** [Log::Write(LogLevel, uint8, char const*, ...)] *)
Definition Write_node (level : LogLevel) (nodeId : byte) (format : string)
    (args : va_list) : M unit :=
  when_active (fun this =>
    (if LogLevel_neqb level LogLevel_Internal
     then emit (Mutex_Lock (m_logMutex this)) else ret tt) ;;
    w <- get ;;
    for_each (fun it => emit (Impl_Write it level nodeId format args)) (m_pImpls w) ;;
    (if LogLevel_neqb level LogLevel_Internal
     then emit (Mutex_Unlock (m_logMutex this)) else ret tt)).

(** [Log::SetLoggingState(bool)] *)
Definition SetLoggingState_bool (dologging : bool) : M unit :=
  w <- get ;;
  let prevLogging := s_dologging w in
  set_dologging dologging ;;
  w1 <- get ;;
  if negb prevLogging && s_dologging w1
  then Write LogLevel_Always Logging_started []
  else ret tt.

(** [Log::SetLoggingState(LogLevel)] *)
Definition SetLoggingState_level (saveLevel : LogLevel) : M unit :=
  w <- get ;;
  let prevLogging := s_dologging w in
  (if LogLevel_gtb saveLevel LogLevel_Always
   then set_dologging true
   else set_dologging false) ;;
  when_active (fun this =>
    emit (Mutex_Lock (m_logMutex this)) ;;
    w1 <- get ;;
    for_each (fun it => emit (Impl_SetLoggingState it saveLevel)) (m_pImpls w1) ;;
    emit (Mutex_Unlock (m_logMutex this))) ;;
  w2 <- get ;;
  if negb prevLogging && s_dologging w2
  then Write LogLevel_Always Logging_started []
  else ret tt.

(** [Log::GetLoggingState] *)
Definition GetLoggingState : M bool :=
  w <- get ;; ret (s_dologging w).

(** [Log::SetLogFileName] *)
Definition SetLogFileName (filename : string) : M unit :=
  when_active (fun this =>
    emit (Mutex_Lock (m_logMutex this)) ;;
    w <- get ;;
    for_each (fun it => emit (Impl_SetLogFileName it filename)) (m_pImpls w) ;;
    emit (Mutex_Unlock (m_logMutex this))).

(** ** The public interface as a datatype *)

Inductive call : Type :=
| Call_Create (filename : string) (bAppend bConsoleOutput : bool) (saveLevel : LogLevel)
| Call_Destroy
| Call_SetLoggingClass (LogClass : addr) (Append : bool)
| Call_SetLoggingState_bool (dologging : bool)
| Call_SetLoggingState_level (saveLevel : LogLevel)
| Call_GetLoggingState
| Call_Write (level : LogLevel) (format : string) (args : va_list)
| Call_Write_node (level : LogLevel) (nodeId : byte) (format : string) (args : va_list)
| Call_SetLogFileName (filename : string).

Definition perform (c : call) : M unit :=
  match c with
  | Call_Create f a co l => Create f a co l ;; ret tt
  | Call_Destroy => Destroy
  | Call_SetLoggingClass p a => SetLoggingClass p a ;; ret tt
  | Call_SetLoggingState_bool b => SetLoggingState_bool b
  | Call_SetLoggingState_level l => SetLoggingState_level l
  | Call_GetLoggingState => GetLoggingState ;; ret tt
  | Call_Write l f a => Write l f a
  | Call_Write_node l n f a => Write_node l n f a
  | Call_SetLogFileName f => SetLogFileName f
  end.

Fixpoint perform_all (cs : list call) : M unit :=
  match cs with
  | [] => ret tt
  | c :: rest => perform c ;; perform_all rest
  end.

(** Kinds of events within a trace. *)
Definition is_Impl_Write (e : event) : bool :=
  match e with Impl_Write _ _ _ _ _ => true | _ => false end.

Definition is_mutex_lock_or_unlock (e : event) : bool :=
  match e with Mutex_Lock _ | Mutex_Unlock _ => true | _ => false end.

Open Scope string_scope.
Open Scope list_scope.

(** The two [Write] overloads among the calls. *)
Definition is_Write_call (c : call) : bool :=
  match c with
  | Call_Write _ _ _ | Call_Write_node _ _ _ _ => true
  | _ => false
  end.

Definition is_Mutex_new (e : event) : bool :=
  match e with Mutex_new _ => true | _ => false end.

Definition is_Impl_delete (e : event) : bool :=
  match e with Impl_delete _ => true | _ => false end.

(** What the sinks of [l] see when the message goes out to them. *)
Definition started_banner (l : list addr) : list event :=
  map (fun it => Impl_Write it LogLevel_Always x00 Logging_started []) l.

(** How one call may change the sink vector [l] into [l']: either [l] stays
    as it is, with at most one sink added behind it, or every entry of [l]
    is deleted, first to last, and [l'] holds at most one, new, sink. *)
Definition keeps_order (l l' : list addr) (t : list event) : Prop :=
  (exists added, l' = l ++ added /\ (List.length added <= 1)%nat) \/
  ((List.length l' <= 1)%nat /\
   filter is_Impl_delete t = map Impl_delete l).

(** The state after [SetLoggingClass(sinkA, true)] and then
    [SetLoggingClass(sinkB, true)]. *)
Definition both_appended (sinkA sinkB : addr) (w : World) : World :=
  exec (SetLoggingClass sinkB true) (exec (SetLoggingClass sinkA true) w).

(** ** Sample states *)

(** The state right after the first [Create] of a program. *)
Definition created : World :=
  exec (Create "ozw.log" false true LogLevel_Detail) startup.

(** A sink registered before any [Create]: the vector is static, so it is
    there although no instance is. *)
Definition preregistered : World :=
  exec (SetLoggingClass 7 true) startup.

(** The state left by [Create], with a second sink appended to it. *)
Definition two_sinks : World :=
  exec (SetLoggingClass 7 true) created.

(** Two sinks and an instance, logging switched off. *)
Definition paused : World :=
  exec (SetLoggingState_bool false) two_sinks.

(** ** Reading a trace *)

(** The calls that build, destroy or register: [Create], [Destroy] and
    [SetLoggingClass]. *)
Definition is_lifecycle_call (c : call) : bool :=
  match c with
  | Call_Create _ _ _ _ | Call_Destroy | Call_SetLoggingClass _ _ => true
  | _ => false
  end.

Definition is_Impl_SetLogFileName (e : event) : bool :=
  match e with Impl_SetLogFileName _ _ => true | _ => false end.

(** Constructions and destructions. *)
Definition is_alloc_or_free (e : event) : bool :=
  match e with
  | Mutex_new _ | Mutex_Release _ | LogImpl_new _ _ _ _ _ | Impl_delete _ => true
  | _ => false
  end.

(** Mutex traffic and the sink methods that carry a message or a setting. *)
Definition is_lock_or_sink_method (e : event) : bool :=
  match e with
  | Mutex_Lock _ | Mutex_Unlock _ | Impl_Write _ _ _ _ _
  | Impl_SetLoggingState _ _ | Impl_SetLogFileName _ _ => true
  | _ => false
  end.

(** One step of a monitor for the use of the mutex; [held] is the mutex the
    running call has locked, if any.  A lock is taken only when none is held,
    an unlock gives back the mutex that is held, a sink is handed a setting
    only under the lock, a message of a level other than Internal likewise,
    and the mutex is not released while locked.  [None] is a violation. *)
Definition lock_step (held : option addr) (e : event) : option (option addr) :=
  match e with
  | Mutex_Lock m =>
      match held with None => Some (Some m) | Some _ => None end
  | Mutex_Unlock m =>
      match held with
      | Some m' => if (m =? m')%nat then Some None else None
      | None => None
      end
  | Impl_Write _ level _ _ _ =>
      if LogLevel_neqb level LogLevel_Internal
      then match held with Some _ => Some held | None => None end
      else Some held
  | Impl_SetLoggingState _ _ | Impl_SetLogFileName _ _ =>
      match held with Some _ => Some held | None => None end
  | Mutex_Release _ =>
      match held with None => Some held | Some _ => None end
  | Mutex_new _ | LogImpl_new _ _ _ _ _ | Impl_delete _ => Some held
  end.

Fixpoint lock_run (held : option addr) (t : list event) : option (option addr) :=
  match t with
  | [] => Some held
  | e :: rest =>
      match lock_step held e with
      | Some held' => lock_run held' rest
      | None => None
      end
  end.

(** The trace respects the monitor and ends with the mutex free. *)
Definition lock_disciplined (t : list event) : bool :=
  match lock_run None t with
  | Some None => true
  | _ => false
  end.

(** A trace made of fan-outs under the lock only: each is a lock, calls of
    one method on the sinks of [l], and the unlock. *)
Inductive fan_outs (l : list addr) : list event -> Prop :=
| fan_outs_nil : fan_outs l []
| fan_outs_locked (m : addr) (g : addr -> event) (t : list event) :
    (forall it, lock_step (Some m) (g it) = Some (Some m)) ->
    (forall it, is_alloc_or_free (g it) = false) ->
    fan_outs l t ->
    fan_outs l ((Mutex_Lock m :: map g l ++ [Mutex_Unlock m]) ++ t)
| fan_outs_Internal (g : addr -> event) (t : list event) :
    (forall it, lock_step None (g it) = Some None) ->
    (forall it, is_alloc_or_free (g it) = false) ->
    fan_outs l t ->
    fan_outs l (map g l ++ t).

(** The calls that only fan out to the sinks: the two [Write] overloads and
    [SetLogFileName]. *)
Definition is_fan_out_call (c : call) : bool :=
  match c with
  | Call_Write _ _ _ | Call_Write_node _ _ _ _ | Call_SetLogFileName _ => true
  | _ => false
  end.

(** The enabled flag after call [c], given the flag [d] before it, as read
    off the assignments to [s_dologging]. *)
Definition flag_after (d : bool) (c : call) : bool :=
  match c with
  | Call_Create _ _ _ _ => true
  | Call_SetLoggingState_bool b => b
  | Call_SetLoggingState_level l =>
      (LogLevel_value LogLevel_Always <? LogLevel_value l)%Z
  | _ => d
  end.

(** An instance never stands without a sink. *)
Definition instance_has_sink (w : World) : bool :=
  match s_instance w with
  | Some _ => (0 <? List.length (m_pImpls w))%nat
  | None => true
  end.

(** * Properties *)

(** ** The monad and its primitives *)

Lemma bind_run {A B} (m : M A) (k : A -> M B) w [a w1 t1 b w2 t2] :
  m w = (a, w1, t1) -> k a w1 = (b, w2, t2) ->
  bind m k w = (b, w2, t1 ++ t2).
Proof.
  intros Hm Hk. unfold bind. rewrite Hm, Hk. reflexivity.
Qed.

Lemma bind_get {A} (k : World -> M A) w : bind get k w = k w w.
Proof.
  unfold bind, get. destruct (k w w) as [[b w2] t2]. reflexivity.
Qed.

Lemma bind_ret {A B} (a : A) (k : A -> M B) w : bind (ret a) k w = k a w.
Proof.
  unfold bind, ret. destruct (k a w) as [[b w2] t2]. reflexivity.
Qed.

Lemma bind_emit {A} e (k : unit -> M A) w :
  bind (emit e) k w = (value (k tt) w, exec (k tt) w, e :: emitted (k tt) w).
Proof.
  unfold bind, emit, value, exec, emitted.
  destruct (k tt w) as [[b w2] t2]. reflexivity.
Qed.

Lemma run_eta {A} (m : M A) w : m w = (value m w, exec m w, emitted m w).
Proof.
  unfold value, exec, emitted. destruct (m w) as [[a w1] t]. reflexivity.
Qed.

Lemma World_eta w :
  mkWorld (s_instance w) (m_pImpls w) (s_dologging w) (brk w) = w.
Proof. destruct w; reflexivity. Qed.

Lemma nonempty_size (l : list addr) : (0 <? List.length l)%nat = true <-> l <> [].
Proof.
  destruct l; simpl; split; intros H; try congruence; try discriminate.
  reflexivity.
Qed.

(** ** The two loops *)

Lemma for_each_emit (g : addr -> event) l w :
  for_each (fun it => emit (g it)) l w = (tt, w, map g l).
Proof.
  induction l as [|p rest IH]; simpl.
  - reflexivity.
  - rewrite bind_emit. rewrite (run_eta _ w) in IH.
    injection IH as Hv He Ht. rewrite He, Ht.
    destruct (value _ w). reflexivity.
Qed.

Lemma erase_loop_run l : forall w,
  m_pImpls w = l ->
  erase_loop l w =
  (tt, mkWorld (s_instance w) [] (s_dologging w) (brk w), map Impl_delete l).
Proof.
  induction l as [|lc rest IH]; intros w Hl; simpl.
  - rewrite <- Hl. rewrite World_eta. reflexivity.
  - unfold bind at 1. simpl. unfold bind at 1. simpl.
    rewrite IH by reflexivity. reflexivity.
Qed.

Lemma delete_all_impls_run w :
  delete_all_impls w =
  (tt, mkWorld (s_instance w) [] (s_dologging w) (brk w),
   map Impl_delete (m_pImpls w)).
Proof.
  unfold delete_all_impls. rewrite bind_get. apply erase_loop_run. reflexivity.
Qed.

(** ** Closed forms of the member functions *)

Lemma when_active_off body w :
  s_instance w = None \/ s_dologging w = false \/ m_pImpls w = [] ->
  when_active body w = (tt, w, []).
Proof.
  intros H. unfold when_active. rewrite bind_get.
  destruct (s_instance w) as [this|]; [|reflexivity].
  destruct H as [H|[H|H]]; [discriminate| |]; rewrite H; simpl.
  - reflexivity.
  - rewrite andb_false_r. reflexivity.
Qed.

Lemma when_active_on body w [this] :
  s_instance w = Some this -> s_dologging w = true -> m_pImpls w <> [] ->
  when_active body w = body this w.
Proof.
  intros Hi Hd Hl. unfold when_active. rewrite bind_get, Hi, Hd.
  apply nonempty_size in Hl. rewrite Hl. reflexivity.
Qed.

Lemma locked_fan_out_run (g : addr -> event) this w :
  (emit (Mutex_Lock (m_logMutex this)) ;;
   w1 <- get ;;
   for_each (fun it => emit (g it)) (m_pImpls w1) ;;
   emit (Mutex_Unlock (m_logMutex this))) w =
  (tt, w,
   Mutex_Lock (m_logMutex this) :: map g (m_pImpls w)
     ++ [Mutex_Unlock (m_logMutex this)]).
Proof.
  assert (Hrest :
    (w1 <- get ;;
     for_each (fun it => emit (g it)) (m_pImpls w1) ;;
     emit (Mutex_Unlock (m_logMutex this))) w =
    (tt, w, map g (m_pImpls w) ++ [Mutex_Unlock (m_logMutex this)])).
  { rewrite bind_get.
    apply (bind_run _ _ _ (for_each_emit g (m_pImpls w) w)). reflexivity. }
  rewrite bind_emit. unfold value, exec, emitted. rewrite Hrest. reflexivity.
Qed.

Lemma Write_on level format args w [this] :
  s_instance w = Some this -> s_dologging w = true -> m_pImpls w <> [] ->
  Write level format args w =
  (tt, w,
   Mutex_Lock (m_logMutex this)
     :: map (fun it => Impl_Write it level x00 format args) (m_pImpls w)
     ++ [Mutex_Unlock (m_logMutex this)]).
Proof.
  intros Hi Hd Hl. unfold Write.
  rewrite (when_active_on _ _ Hi Hd Hl).
  apply (locked_fan_out_run (fun it => Impl_Write it level x00 format args)).
Qed.

Lemma Write_off level format args w :
  s_instance w = None \/ s_dologging w = false \/ m_pImpls w = [] ->
  Write level format args w = (tt, w, []).
Proof. apply when_active_off. Qed.

Lemma Write_node_off level nodeId format args w :
  s_instance w = None \/ s_dologging w = false \/ m_pImpls w = [] ->
  Write_node level nodeId format args w = (tt, w, []).
Proof. apply when_active_off. Qed.

Lemma Write_node_on level nodeId format args w [this] :
  s_instance w = Some this -> s_dologging w = true -> m_pImpls w <> [] ->
  Write_node level nodeId format args w =
  (tt, w,
   (if LogLevel_neqb level LogLevel_Internal
    then [Mutex_Lock (m_logMutex this)] else [])
   ++ map (fun it => Impl_Write it level nodeId format args) (m_pImpls w)
   ++ (if LogLevel_neqb level LogLevel_Internal
       then [Mutex_Unlock (m_logMutex this)] else [])).
Proof.
  intros Hi Hd Hl. unfold Write_node.
  rewrite (when_active_on _ _ Hi Hd Hl).
  destruct (LogLevel_neqb level LogLevel_Internal).
  - apply (locked_fan_out_run (fun it => Impl_Write it level nodeId format args)).
  - rewrite bind_ret, bind_get.
    apply (bind_run _ _ _ (for_each_emit _ (m_pImpls w) w)). reflexivity.
Qed.

Lemma Log_dtor_run this w :
  Log_dtor this w =
  (tt, mkWorld (s_instance w) [] (s_dologging w) (brk w),
   Mutex_Release (m_logMutex this) :: map Impl_delete (m_pImpls w)).
Proof.
  unfold Log_dtor. rewrite bind_emit. unfold value, exec, emitted.
  rewrite delete_all_impls_run. reflexivity.
Qed.

Lemma Destroy_absent w :
  s_instance w = None -> Destroy w = (tt, w, []).
Proof.
  intros Hi. unfold Destroy. rewrite bind_get, Hi, bind_ret.
  unfold set_instance. rewrite <- Hi, World_eta. reflexivity.
Qed.

Lemma Destroy_present w [this] :
  s_instance w = Some this ->
  Destroy w =
  (tt, mkWorld None [] (s_dologging w) (brk w),
   Mutex_Release (m_logMutex this) :: map Impl_delete (m_pImpls w)).
Proof.
  intros Hi. unfold Destroy. rewrite bind_get, Hi.
  rewrite (bind_run _ _ _ (Log_dtor_run this w) eq_refl).
  simpl. rewrite app_nil_r. reflexivity.
Qed.

Lemma Log_ctor_run filename bAppend bConsoleOutput saveLevel w :
  Log_ctor filename bAppend bConsoleOutput saveLevel w =
  if (List.length (m_pImpls w) =? 0)%nat
  then (mkLog (brk w),
        mkWorld (s_instance w) (m_pImpls w ++ [S (brk w)]) (s_dologging w)
                (S (S (brk w))),
        [Mutex_new (brk w);
         LogImpl_new (S (brk w)) filename bAppend bConsoleOutput saveLevel])
  else (mkLog (brk w),
        mkWorld (s_instance w) (m_pImpls w) (s_dologging w) (S (brk w)),
        [Mutex_new (brk w)]).
Proof.
  unfold Log_ctor, bind, new, emit, get, push_back, set_impls, ret. simpl.
  destruct (List.length (m_pImpls w) =? 0)%nat; reflexivity.
Qed.

Lemma Create_absent filename bAppend bConsoleOutput saveLevel w :
  s_instance w = None ->
  Create filename bAppend bConsoleOutput saveLevel w =
  if (List.length (m_pImpls w) =? 0)%nat
  then (Some (mkLog (brk w)),
        mkWorld (Some (mkLog (brk w))) (m_pImpls w ++ [S (brk w)]) true
                (S (S (brk w))),
        [Mutex_new (brk w);
         LogImpl_new (S (brk w)) filename bAppend bConsoleOutput saveLevel])
  else (Some (mkLog (brk w)),
        mkWorld (Some (mkLog (brk w))) (m_pImpls w) true (S (brk w)),
        [Mutex_new (brk w)]).
Proof.
  intros Hi. unfold Create. rewrite bind_get, Hi.
  unfold bind at 1. unfold bind at 1. rewrite Log_ctor_run.
  destruct (List.length (m_pImpls w) =? 0)%nat; reflexivity.
Qed.

Lemma Create_present filename bAppend bConsoleOutput saveLevel w [old] :
  s_instance w = Some old ->
  Create filename bAppend bConsoleOutput saveLevel w =
  (Some (mkLog (brk w)),
   mkWorld (Some (mkLog (brk w))) [S (brk w)] true (S (S (brk w))),
   (Mutex_Release (m_logMutex old) :: map Impl_delete (m_pImpls w))
   ++ [Mutex_new (brk w);
       LogImpl_new (S (brk w)) filename bAppend bConsoleOutput saveLevel]).
Proof.
  intros Hi. unfold Create. rewrite bind_get, Hi.
  unfold bind at 1. unfold bind at 1. rewrite (Destroy_present _ Hi).
  unfold bind at 1. rewrite Log_ctor_run. simpl.
  rewrite app_nil_r. reflexivity.
Qed.

Lemma SetLoggingClass_append LogClass w :
  SetLoggingClass LogClass true w =
  (true,
   mkWorld (s_instance w) (m_pImpls w ++ [LogClass]) (s_dologging w) (brk w),
   []).
Proof. reflexivity. Qed.

Lemma SetLoggingClass_replace LogClass w :
  SetLoggingClass LogClass false w =
  (true, mkWorld (s_instance w) [LogClass] (s_dologging w) (brk w),
   map Impl_delete (m_pImpls w)).
Proof.
  unfold SetLoggingClass. simpl. unfold bind at 1.
  rewrite delete_all_impls_run. simpl. rewrite app_nil_r. reflexivity.
Qed.

Lemma SetLoggingState_bool_run dologging w :
  SetLoggingState_bool dologging w =
  let w1 := mkWorld (s_instance w) (m_pImpls w) dologging (brk w) in
  if negb (s_dologging w) && dologging
  then Write LogLevel_Always Logging_started [] w1
  else (tt, w1, []).
Proof.
  unfold SetLoggingState_bool. rewrite bind_get.
  unfold bind at 1. unfold set_dologging at 1. rewrite bind_get. simpl.
  destruct (negb (s_dologging w) && dologging).
  - destruct (Write _ _ _ _) as [[u w2] t]. reflexivity.
  - reflexivity.
Qed.

Lemma SetLoggingState_level_run saveLevel w :
  SetLoggingState_level saveLevel w =
  let on := LogLevel_gtb saveLevel LogLevel_Always in
  let w1 := mkWorld (s_instance w) (m_pImpls w) on (brk w) in
  let propagate :=
    match s_instance w with
    | Some this =>
        if on && (0 <? List.length (m_pImpls w))%nat
        then Mutex_Lock (m_logMutex this)
               :: map (fun it => Impl_SetLoggingState it saveLevel) (m_pImpls w)
               ++ [Mutex_Unlock (m_logMutex this)]
        else []
    | None => []
    end in
  if negb (s_dologging w) && on
  then (tt, w1, propagate ++ emitted (Write LogLevel_Always Logging_started []) w1)
  else (tt, w1, propagate).
Proof.
  unfold SetLoggingState_level. rewrite bind_get.
  set (on := LogLevel_gtb saveLevel LogLevel_Always).
  set (w1 := mkWorld (s_instance w) (m_pImpls w) on (brk w)).
  assert (Hset : (if on then set_dologging true else set_dologging false) w
                 = (tt, w1, [])).
  { unfold w1. destruct on; reflexivity. }
  cbv zeta.
  set (propagate := match s_instance w with Some _ => _ | None => _ end).
  assert (Hprop : when_active (fun this =>
      emit (Mutex_Lock (m_logMutex this)) ;;
      w1 <- get ;;
      for_each (fun it => emit (Impl_SetLoggingState it saveLevel)) (m_pImpls w1) ;;
      emit (Mutex_Unlock (m_logMutex this))) w1 = (tt, w1, propagate)).
  { unfold when_active, propagate. rewrite bind_get. simpl.
    destruct (s_instance w) as [this|]; [|reflexivity].
    destruct (on && (0 <? List.length (m_pImpls w))%nat); [|reflexivity].
    apply (locked_fan_out_run (fun it => Impl_SetLoggingState it saveLevel) this w1). }
  unfold bind at 1. rewrite Hset. unfold bind at 1. rewrite Hprop.
  rewrite bind_get. simpl.
  destruct (negb (s_dologging w) && on).
  - rewrite (run_eta (Write _ _ _) w1).
    assert (Hw : exec (Write LogLevel_Always Logging_started []) w1 = w1).
    { unfold exec, Write, when_active. rewrite bind_get.
      destruct (s_instance w1) as [this|]; [|reflexivity].
      destruct (s_dologging w1 && (0 <? List.length (m_pImpls w1))%nat);
        [|reflexivity].
      rewrite locked_fan_out_run. reflexivity. }
    rewrite Hw. destruct (value _ w1). reflexivity.
  - unfold ret. cbv iota beta. rewrite app_nil_r. reflexivity.
Qed.

(** ** Write while logging is inactive *)

(** C1: a call of either [Write] overload made while no instance exists, or
    while the enabled flag is false, or while the sink vector is empty,
    returns without calling anything (no sink method, no mutex operation)
    and leaves the state as it was. *)
Theorem Write_inactive_is_noop :
  forall (w : World) (level : LogLevel) (nodeId : byte) (format : string)
         (args : va_list),
    s_instance w = None \/ s_dologging w = false \/ m_pImpls w = [] ->
    Write level format args w = (tt, w, []) /\
    Write_node level nodeId format args w = (tt, w, []).
Proof.
  intros w level nodeId format args H. split.
  - apply Write_off, H.
  - apply Write_node_off, H.
Qed.

Lemma Write_inactive_is_noop_witness :
  (s_instance paused = None \/ s_dologging paused = false \/
   m_pImpls paused = []) /\
  Write LogLevel_Error "node %d timed out" [VInt 5] paused = (tt, paused, []) /\
  Write_node LogLevel_Error x05 "node %d timed out" [VInt 5] paused =
    (tt, paused, []).
Proof.
  assert (H : s_instance paused = None \/ s_dologging paused = false \/
              m_pImpls paused = [])
    by (right; left; reflexivity).
  split; [exact H|].
  exact (Write_inactive_is_noop paused LogLevel_Error x05 "node %d timed out"
           [VInt 5] H).
Defined.

(** Any run of [Write] calls made while disabled calls nothing at all. *)
Lemma Writes_while_disabled_are_silent (cs : list call) (w : World) :
  forallb is_Write_call cs = true -> s_dologging w = false ->
  perform_all cs w = (tt, w, []).
Proof.
  intros Hcs Hd. induction cs as [|c rest IH]; simpl.
  - reflexivity.
  - simpl in Hcs. apply andb_prop in Hcs. destruct Hcs as [Hc Hrest].
    assert (Hone : perform c w = (tt, w, [])).
    { destruct c; try discriminate Hc; simpl.
      - apply Write_off. right; left; exact Hd.
      - apply Write_node_off. right; left; exact Hd. }
    apply (bind_run _ _ _ Hone). apply IH, Hrest.
Qed.

(** ** The Internal level and the mutex *)

(** C2 (as stated) fails for the overload without a node id: on the state
    left by [Create], where an instance exists, logging is enabled and one
    sink is registered, an Internal-level [Write] locks and unlocks the
    mutex around the fan-out. *)
Lemma Write_Internal_takes_mutex :
  s_instance created = Some (mkLog 0) /\
  s_dologging created = true /\
  m_pImpls created = [1] /\
  emitted (Write LogLevel_Internal "queued line" []) created =
    [Mutex_Lock 0; Impl_Write 1 LogLevel_Internal x00 "queued line" [];
     Mutex_Unlock 0] /\
  filter is_mutex_lock_or_unlock
    (emitted (Write LogLevel_Internal "queued line" []) created) <> [].
Proof.
  repeat split. vm_compute. discriminate.
Qed.

(** C2 (amended): with an instance, logging enabled and a non-empty sink
    vector, the overload that carries a node id forwards an Internal-level
    message to every sink, in order, and touches the mutex neither before nor
    after; the overload without a node id locks before the fan-out and
    unlocks after it at every level, Internal included. *)
Theorem Write_Internal_mutex_use :
  forall (w : World) (this : Log) (nodeId : byte) (format : string)
         (args : va_list),
    s_instance w = Some this -> s_dologging w = true -> m_pImpls w <> [] ->
    Write_node LogLevel_Internal nodeId format args w =
      (tt, w,
       map (fun it => Impl_Write it LogLevel_Internal nodeId format args)
           (m_pImpls w)) /\
    forall level : LogLevel,
      Write level format args w =
        (tt, w,
         Mutex_Lock (m_logMutex this)
           :: map (fun it => Impl_Write it level x00 format args) (m_pImpls w)
           ++ [Mutex_Unlock (m_logMutex this)]).
Proof.
  intros w this nodeId format args Hi Hd Hl. split.
  - rewrite (Write_node_on _ _ _ _ _ Hi Hd Hl). simpl.
    rewrite app_nil_r. reflexivity.
  - intros level. apply Write_on; assumption.
Qed.

Lemma Write_Internal_mutex_use_witness :
  Write_node LogLevel_Internal x03 "queued line" [] created =
    (tt, created, [Impl_Write 1 LogLevel_Internal x03 "queued line" []]) /\
  forall level : LogLevel,
    Write level "queued line" [] created =
      (tt, created,
       [Mutex_Lock 0; Impl_Write 1 level x00 "queued line" []; Mutex_Unlock 0]).
Proof.
  apply (Write_Internal_mutex_use created (mkLog 0) x03 "queued line" []).
  - reflexivity.
  - reflexivity.
  - discriminate.
Defined.

(** ** Destroy *)

Lemma Destroy_clears_instance w : s_instance (exec Destroy w) = None.
Proof.
  unfold exec. destruct (s_instance w) as [this|] eqn:Hi.
  - rewrite (Destroy_present _ Hi). reflexivity.
  - rewrite (Destroy_absent _ Hi). exact Hi.
Qed.

(** C8: [Destroy] called while no instance exists does nothing: the state
    (instance pointer, sink vector, flag) is what it was and nothing is
    called, no sink is deleted. *)
Theorem Destroy_absent_is_noop :
  forall w : World, s_instance w = None -> Destroy w = (tt, w, []).
Proof.
  intros w Hi. apply Destroy_absent, Hi.
Qed.

Lemma Destroy_absent_is_noop_witness :
  s_instance preregistered = None /\
  Destroy preregistered = (tt, preregistered, []).
Proof.
  split; [reflexivity | apply (Destroy_absent_is_noop preregistered eq_refl)].
Defined.

(** A second [Destroy] in a row finds no instance, so it does nothing. *)
Lemma Destroy_twice w :
  Destroy (exec Destroy w) = (tt, exec Destroy w, []).
Proof. apply Destroy_absent, Destroy_clears_instance. Qed.

(** C9: [Destroy] leaves the enabled flag alone; [GetLoggingState] answers
    after it what it answered before it. *)
Theorem Destroy_keeps_logging_state :
  forall w : World,
    value GetLoggingState (exec Destroy w) = value GetLoggingState w /\
    s_dologging (exec Destroy w) = s_dologging w.
Proof.
  intros w. unfold exec.
  destruct (s_instance w) as [this|] eqn:Hi.
  - rewrite (Destroy_present _ Hi). split; reflexivity.
  - rewrite (Destroy_absent _ Hi). split; reflexivity.
Qed.

(** ** The "Logging started" message *)

Lemma filter_map_all {A B} (f : B -> bool) (g : A -> B) (l : list A) :
  (forall x, f (g x) = true) -> filter f (map g l) = map g l.
Proof.
  intros H. induction l as [|x l IH]; simpl; [reflexivity|].
  rewrite H, IH. reflexivity.
Qed.

Lemma filter_map_none {A B} (f : B -> bool) (g : A -> B) (l : list A) :
  (forall x, f (g x) = false) -> filter f (map g l) = [].
Proof.
  intros H. induction l as [|x l IH]; simpl; [reflexivity|].
  rewrite H, IH. reflexivity.
Qed.

Lemma Write_reaches_each_sink level format args w this :
  s_instance w = Some this -> s_dologging w = true ->
  filter is_Impl_Write (emitted (Write level format args) w) =
  map (fun it => Impl_Write it level x00 format args) (m_pImpls w).
Proof.
  intros Hi Hd. unfold emitted.
  destruct (m_pImpls w) as [|p rest] eqn:Hl.
  - rewrite Write_off by (right; right; exact Hl). reflexivity.
  - rewrite (Write_on level format args w Hi Hd)
      by (rewrite Hl; discriminate).
    rewrite Hl. cbn [snd filter is_Impl_Write].
    rewrite filter_app, filter_map_all by reflexivity.
    simpl. rewrite app_nil_r. reflexivity.
Qed.

Lemma propagate_has_no_Write (m : addr) saveLevel (l : list addr) :
  filter is_Impl_Write
    (Mutex_Lock m :: map (fun it => Impl_SetLoggingState it saveLevel) l
       ++ [Mutex_Unlock m]) = [].
Proof.
  cbn [filter is_Impl_Write].
  rewrite filter_app, filter_map_none by reflexivity. reflexivity.
Qed.

(** C3 (as stated) fails when sinks are registered but no instance exists:
    with sink 7 registered before any [Create], either [SetLoggingState]
    takes the flag from false to true and sink 7 is sent nothing. *)
Lemma Logging_started_not_sent_without_instance :
  s_instance preregistered = None /\
  m_pImpls preregistered = [7] /\
  s_dologging preregistered = false /\
  SetLoggingState_bool true preregistered =
    (tt, mkWorld None [7] true 0, []) /\
  SetLoggingState_level LogLevel_Detail preregistered =
    (tt, mkWorld None [7] true 0, []) /\
  filter is_Impl_Write (emitted (SetLoggingState_bool true) preregistered)
    <> started_banner (m_pImpls preregistered).
Proof.
  repeat split. vm_compute. discriminate.
Qed.

(** C3 (amended): a call of [SetLoggingState(bool)] or
    [SetLoggingState(LogLevel)] that takes the enabled flag from false to
    true while an instance exists forwards exactly one "Logging started"
    message at level Always to every entry of the sink vector, in order; a
    call of either that does not take the flag from false to true forwards no
    message at all; and without an instance nothing is forwarded. *)
Theorem Logging_started_on_enable :
  forall (w : World) (dologging : bool) (saveLevel : LogLevel),
    filter is_Impl_Write (emitted (SetLoggingState_bool dologging) w) =
      match s_instance w with
      | Some _ =>
          if negb (s_dologging w) && dologging
          then started_banner (m_pImpls w) else []
      | None => []
      end /\
    filter is_Impl_Write (emitted (SetLoggingState_level saveLevel) w) =
      match s_instance w with
      | Some _ =>
          if negb (s_dologging w) && LogLevel_gtb saveLevel LogLevel_Always
          then started_banner (m_pImpls w) else []
      | None => []
      end.
Proof.
  intros w dologging saveLevel. split.
  - unfold emitted at 1. rewrite SetLoggingState_bool_run. cbv zeta.
    destruct (negb (s_dologging w) && dologging) eqn:Hedge.
    + apply andb_prop in Hedge. destruct Hedge as [_ Hd]. subst dologging.
      destruct (s_instance w) as [this|] eqn:Hi.
      * exact (Write_reaches_each_sink LogLevel_Always Logging_started []
                 (mkWorld (Some this) (m_pImpls w) true (brk w)) this
                 eq_refl eq_refl).
      * rewrite Write_off by (left; reflexivity). reflexivity.
    + destruct (s_instance w); reflexivity.
  - unfold emitted at 1. rewrite SetLoggingState_level_run. cbv zeta.
    set (on := LogLevel_gtb saveLevel LogLevel_Always).
    destruct (negb (s_dologging w) && on) eqn:Hedge.
    + apply andb_prop in Hedge. destruct Hedge as [_ Hon]. rewrite Hon.
      cbn [snd]. rewrite filter_app.
      destruct (s_instance w) as [this|] eqn:Hi.
      * rewrite (Write_reaches_each_sink LogLevel_Always Logging_started []
                   (mkWorld (Some this) (m_pImpls w) true (brk w)) this
                   eq_refl eq_refl).
        cbn [m_pImpls]. fold (started_banner (m_pImpls w)).
        destruct (true && (0 <? List.length (m_pImpls w))%nat).
        -- rewrite propagate_has_no_Write. reflexivity.
        -- reflexivity.
      * unfold emitted. rewrite Write_off by (left; reflexivity). reflexivity.
    + cbn [snd]. destruct (s_instance w) as [this|]; [|reflexivity].
      destruct (on && (0 <? List.length (m_pImpls w))%nat).
      * apply propagate_has_no_Write.
      * reflexivity.
Qed.

(** The whole trace of an enabling call on the state left by [Create] after
    logging was switched off: the level is handed to the sink first, the
    message follows, each under its own lock. *)
Example Logging_started_after_pause :
  emitted (SetLoggingState_level LogLevel_Debug)
          (exec (SetLoggingState_bool false) created) =
  [Mutex_Lock 0; Impl_SetLoggingState 1 LogLevel_Debug; Mutex_Unlock 0;
   Mutex_Lock 0; Impl_Write 1 LogLevel_Always x00 Logging_started [];
   Mutex_Unlock 0].
Proof. reflexivity. Qed.

(** ** SetLoggingState(LogLevel) *)

(** C4: [SetLoggingState(saveLevel)] sets the enabled flag to
    [saveLevel > LogLevel_Always]; when that is true, an instance exists and
    the sink vector is not empty, it locks the mutex, hands [saveLevel] to
    every registered sink from first to last, and unlocks.  (The "Logging
    started" message follows when the flag was false before.) *)
Theorem SetLoggingState_level_propagates :
  forall (w : World) (saveLevel : LogLevel),
    s_dologging (exec (SetLoggingState_level saveLevel) w) =
      (LogLevel_value LogLevel_Always <? LogLevel_value saveLevel)%Z /\
    forall this : Log,
      s_instance w = Some this ->
      (LogLevel_value LogLevel_Always <? LogLevel_value saveLevel)%Z = true ->
      m_pImpls w <> [] ->
      SetLoggingState_level saveLevel w =
        (tt, mkWorld (Some this) (m_pImpls w) true (brk w),
         (Mutex_Lock (m_logMutex this)
            :: map (fun it => Impl_SetLoggingState it saveLevel) (m_pImpls w)
            ++ [Mutex_Unlock (m_logMutex this)])
         ++ (if s_dologging w then []
             else Mutex_Lock (m_logMutex this)
                    :: started_banner (m_pImpls w)
                    ++ [Mutex_Unlock (m_logMutex this)])).
Proof.
  intros w saveLevel.
  fold (LogLevel_gtb saveLevel LogLevel_Always).
  pose proof (SetLoggingState_level_run saveLevel w) as Hrun.
  cbv zeta in Hrun. split.
  - unfold exec. rewrite Hrun.
    destruct (negb (s_dologging w) && _); reflexivity.
  - intros this Hi Hon Hl. rewrite Hrun, Hi, Hon.
    apply nonempty_size in Hl. rewrite Hl. cbn [andb].
    destruct (s_dologging w); cbn [negb andb].
    + rewrite app_nil_r. reflexivity.
    + unfold emitted.
      rewrite (Write_on LogLevel_Always Logging_started []
                 (mkWorld (Some this) (m_pImpls w) true (brk w))
                 (this:=this) eq_refl eq_refl)
        by (apply nonempty_size; exact Hl).
      reflexivity.
Qed.

Lemma SetLoggingState_level_propagates_witness :
  s_dologging (exec (SetLoggingState_level LogLevel_Warning) two_sinks) = true /\
  SetLoggingState_level LogLevel_Warning two_sinks =
    (tt, two_sinks,
     [Mutex_Lock 0; Impl_SetLoggingState 1 LogLevel_Warning;
      Impl_SetLoggingState 7 LogLevel_Warning; Mutex_Unlock 0]).
Proof.
  destruct (SetLoggingState_level_propagates two_sinks LogLevel_Warning)
    as [Hflag Hprop].
  split.
  - exact Hflag.
  - apply (Hprop (mkLog 0)).
    + reflexivity.
    + reflexivity.
    + discriminate.
Defined.

(** ** Create *)

(** C5: whatever the state before, [Create] returns the instance it has just
    built, that instance is the one [s_instance] holds, exactly one [Log] was
    constructed by the call, and the enabled flag is true.  When an instance
    existed, its mutex is released and every sink registered before the call
    is deleted, first to last, before the new mutex and the new default sink
    are constructed; the vector then holds that default sink alone. *)
Theorem Create_replaces_instance :
  forall (w : World) (filename : string) (bAppend bConsoleOutput : bool)
         (saveLevel : LogLevel),
    value (Create filename bAppend bConsoleOutput saveLevel) w =
      Some (mkLog (brk w)) /\
    s_instance (exec (Create filename bAppend bConsoleOutput saveLevel) w) =
      Some (mkLog (brk w)) /\
    filter is_Mutex_new
      (emitted (Create filename bAppend bConsoleOutput saveLevel) w) =
      [Mutex_new (brk w)] /\
    s_dologging (exec (Create filename bAppend bConsoleOutput saveLevel) w) =
      true /\
    forall old : Log,
      s_instance w = Some old ->
      emitted (Create filename bAppend bConsoleOutput saveLevel) w =
        (Mutex_Release (m_logMutex old) :: map Impl_delete (m_pImpls w))
        ++ [Mutex_new (brk w);
            LogImpl_new (S (brk w)) filename bAppend bConsoleOutput saveLevel] /\
      m_pImpls (exec (Create filename bAppend bConsoleOutput saveLevel) w) =
        [S (brk w)].
Proof.
  intros w filename bAppend bConsoleOutput saveLevel.
  unfold value, exec, emitted.
  destruct (s_instance w) as [old|] eqn:Hi.
  - rewrite (Create_present filename bAppend bConsoleOutput saveLevel w Hi).
    cbn [fst snd s_instance s_dologging m_pImpls].
    split; [reflexivity|]. split; [reflexivity|]. split; [|split].
    + cbn [app filter is_Mutex_new].
      rewrite filter_app, filter_map_none by reflexivity. reflexivity.
    + reflexivity.
    + intros old' Hold. injection Hold as <-. split; reflexivity.
  - rewrite (Create_absent filename bAppend bConsoleOutput saveLevel w Hi).
    destruct (List.length (m_pImpls w) =? 0)%nat;
      cbn [fst snd s_instance s_dologging m_pImpls];
      repeat split; discriminate.
Qed.

Lemma Create_replaces_instance_witness :
  emitted (Create "second.log" true false LogLevel_Debug) two_sinks =
    [Mutex_Release 0; Impl_delete 1; Impl_delete 7; Mutex_new 2;
     LogImpl_new 3 "second.log" true false LogLevel_Debug] /\
  m_pImpls (exec (Create "second.log" true false LogLevel_Debug) two_sinks) =
    [3].
Proof.
  destruct (Create_replaces_instance two_sinks "second.log" true false
              LogLevel_Debug) as (_ & _ & _ & _ & Hold).
  exact (Hold (mkLog 0) eq_refl).
Defined.

(** When no instance exists, [Create] builds one and deletes nothing; the
    default sink is made only if no sink was registered beforehand. *)
Lemma Create_first_time w filename bAppend bConsoleOutput saveLevel :
  s_instance w = None ->
  emitted (Create filename bAppend bConsoleOutput saveLevel) w =
    Mutex_new (brk w)
      :: match m_pImpls w with
         | [] => [LogImpl_new (S (brk w)) filename bAppend bConsoleOutput saveLevel]
         | _ :: _ => []
         end.
Proof.
  intros Hi. unfold emitted.
  rewrite (Create_absent filename bAppend bConsoleOutput saveLevel w Hi).
  destruct (m_pImpls w); reflexivity.
Qed.

(** ** Registering sinks *)

Lemma Write_node_reaches_each_sink level nodeId format args w this :
  s_instance w = Some this -> s_dologging w = true ->
  filter is_Impl_Write (emitted (Write_node level nodeId format args) w) =
  map (fun it => Impl_Write it level nodeId format args) (m_pImpls w).
Proof.
  intros Hi Hd. unfold emitted.
  destruct (m_pImpls w) as [|p rest] eqn:Hl.
  - rewrite Write_node_off by (right; right; exact Hl). reflexivity.
  - rewrite (Write_node_on level nodeId format args w Hi Hd)
      by (rewrite Hl; discriminate).
    rewrite Hl. cbn [snd].
    rewrite !filter_app, filter_map_all by reflexivity.
    destruct (LogLevel_neqb level LogLevel_Internal); simpl;
      rewrite app_nil_r; reflexivity.
Qed.

(** C6: with an instance in place, [SetLoggingClass(sink, false)] deletes
    every sink registered so far, first to last, and empties the vector
    before it appends [sink]; the vector is then [sink] alone, the call
    returns true, and a following [Write] (either overload) calls no sink but
    [sink]. *)
Theorem SetLoggingClass_replace_leaves_one :
  forall (w : World) (this : Log) (sink : addr),
    s_instance w = Some this ->
    SetLoggingClass sink false w =
      (true, mkWorld (Some this) [sink] (s_dologging w) (brk w),
       map Impl_delete (m_pImpls w)) /\
    m_pImpls (exec delete_all_impls w) = [] /\
    exec (SetLoggingClass sink false) w =
      exec (push_back sink) (exec delete_all_impls w) /\
    forall (level : LogLevel) (nodeId : byte) (format : string) (args : va_list),
      filter is_Impl_Write
        (emitted (Write level format args)
                 (exec (SetLoggingClass sink false) w)) =
        (if s_dologging w then [Impl_Write sink level x00 format args] else []) /\
      filter is_Impl_Write
        (emitted (Write_node level nodeId format args)
                 (exec (SetLoggingClass sink false) w)) =
        (if s_dologging w then [Impl_Write sink level nodeId format args] else []).
Proof.
  intros w this sink Hi.
  assert (Hclear : exec delete_all_impls w =
                   mkWorld (Some this) [] (s_dologging w) (brk w)).
  { unfold exec. rewrite delete_all_impls_run, Hi. reflexivity. }
  split; [rewrite SetLoggingClass_replace, Hi; reflexivity|].
  split; [rewrite Hclear; reflexivity|].
  split.
  { rewrite Hclear. unfold exec. rewrite SetLoggingClass_replace, Hi.
    reflexivity. }
  intros level nodeId format args. unfold exec.
  rewrite SetLoggingClass_replace, Hi. cbn [fst snd].
  destruct (s_dologging w) eqn:Hd.
  - split.
    + exact (Write_reaches_each_sink level format args
               (mkWorld (Some this) [sink] true (brk w)) this eq_refl eq_refl).
    + exact (Write_node_reaches_each_sink level nodeId format args
               (mkWorld (Some this) [sink] true (brk w)) this eq_refl eq_refl).
  - unfold emitted.
    rewrite Write_off, Write_node_off by (right; left; reflexivity).
    split; reflexivity.
Qed.

Lemma SetLoggingClass_replace_leaves_one_witness :
  SetLoggingClass 9 false two_sinks =
    (true, mkWorld (Some (mkLog 0)) [9] true 2, [Impl_delete 1; Impl_delete 7]) /\
  emitted (Write LogLevel_Info "ready" []) (exec (SetLoggingClass 9 false) two_sinks) =
    [Mutex_Lock 0; Impl_Write 9 LogLevel_Info x00 "ready" []; Mutex_Unlock 0].
Proof.
  destruct (SetLoggingClass_replace_leaves_one two_sinks (mkLog 0) 9 eq_refl)
    as (Hrun & _ & _ & _).
  split; [exact Hrun | reflexivity].
Defined.

(** ** Order of the sink vector *)

Lemma when_active_fan_out_exec (g : Log -> addr -> event) (locked : bool) w :
  exec (when_active (fun this =>
          (if locked then emit (Mutex_Lock (m_logMutex this)) else ret tt) ;;
          w1 <- get ;;
          for_each (fun it => emit (g this it)) (m_pImpls w1) ;;
          (if locked then emit (Mutex_Unlock (m_logMutex this)) else ret tt))) w
  = w.
Proof.
  unfold exec, when_active. rewrite bind_get.
  destruct (s_instance w) as [this|]; [|reflexivity].
  destruct (s_dologging w && (0 <? List.length (m_pImpls w))%nat); [|reflexivity].
  destruct locked.
  - rewrite locked_fan_out_run. reflexivity.
  - rewrite bind_ret, bind_get.
    rewrite (bind_run _ _ _ (for_each_emit (g this) (m_pImpls w) w) eq_refl).
    reflexivity.
Qed.

Lemma Write_exec level format args w : exec (Write level format args) w = w.
Proof.
  exact (when_active_fan_out_exec
           (fun _ it => Impl_Write it level x00 format args) true w).
Qed.

Lemma Write_node_exec level nodeId format args w :
  exec (Write_node level nodeId format args) w = w.
Proof.
  exact (when_active_fan_out_exec
           (fun _ it => Impl_Write it level nodeId format args)
           (LogLevel_neqb level LogLevel_Internal) w).
Qed.

Lemma SetLogFileName_exec filename w : exec (SetLogFileName filename) w = w.
Proof.
  exact (when_active_fan_out_exec
           (fun _ it => Impl_SetLogFileName it filename) true w).
Qed.

Lemma SetLoggingState_bool_exec dologging w :
  exec (SetLoggingState_bool dologging) w =
  mkWorld (s_instance w) (m_pImpls w) dologging (brk w).
Proof.
  unfold exec at 1. rewrite SetLoggingState_bool_run. cbv zeta.
  destruct (negb (s_dologging w) && dologging); [|reflexivity].
  apply Write_exec.
Qed.

Lemma SetLoggingState_level_exec saveLevel w :
  exec (SetLoggingState_level saveLevel) w =
  mkWorld (s_instance w) (m_pImpls w)
          (LogLevel_gtb saveLevel LogLevel_Always) (brk w).
Proof.
  unfold exec. rewrite SetLoggingState_level_run. cbv zeta.
  destruct (negb (s_dologging w) && _); reflexivity.
Qed.

Lemma filter_delete_teardown (m : addr) (l : list addr) (t : list event) :
  filter is_Impl_delete t = [] ->
  filter is_Impl_delete ((Mutex_Release m :: map Impl_delete l) ++ t) =
  map Impl_delete l.
Proof.
  intros Ht. rewrite filter_app, Ht. cbn [filter is_Impl_delete].
  rewrite filter_map_all by reflexivity. apply app_nil_r.
Qed.

Lemma bind_ret_tt {A} (m : M A) w :
  (m ;; ret tt) w = (tt, exec m w, emitted m w).
Proof.
  unfold bind, ret, exec, emitted. destruct (m w) as [[a w1] t]. simpl.
  rewrite app_nil_r. reflexivity.
Qed.

Lemma perform_keeps_order (c : call) (w : World) :
  keeps_order (m_pImpls w) (m_pImpls (exec (perform c) w))
              (emitted (perform c) w).
Proof.
  assert (Hsame : forall t, keeps_order (m_pImpls w) (m_pImpls w) t).
  { intros t. left. exists []. rewrite app_nil_r. split; [reflexivity|].
    simpl. lia. }
  destruct c as [f a co l| |p a|b|l| |l f a|l n f a|f];
    unfold exec, emitted; cbn [perform].
  - (* Create *)
    rewrite bind_ret_tt. cbn [fst snd]. unfold exec, emitted.
    destruct (s_instance w) as [old|] eqn:Hi.
    + rewrite (Create_present f a co l w Hi). cbn [fst snd m_pImpls].
      right. split; [simpl; lia|].
      apply filter_delete_teardown. reflexivity.
    + rewrite (Create_absent f a co l w Hi).
      destruct (List.length (m_pImpls w) =? 0)%nat; cbn [fst snd m_pImpls].
      * left. exists [S (brk w)]. split; [reflexivity | simpl; lia].
      * apply Hsame.
  - (* Destroy *)
    destruct (s_instance w) as [this|] eqn:Hi.
    + rewrite (Destroy_present w Hi). cbn [fst snd m_pImpls].
      right. split; [simpl; lia|].
      cbn [filter is_Impl_delete]. apply filter_map_all. reflexivity.
    + rewrite (Destroy_absent w Hi). apply Hsame.
  - (* SetLoggingClass *)
    rewrite bind_ret_tt. cbn [fst snd]. unfold exec, emitted.
    destruct a.
    + rewrite SetLoggingClass_append. cbn [fst snd m_pImpls].
      left. exists [p]. split; [reflexivity | simpl; lia].
    + rewrite SetLoggingClass_replace. cbn [fst snd m_pImpls].
      right. split; [simpl; lia|].
      apply filter_map_all. reflexivity.
  - (* SetLoggingState(bool) *)
    fold (exec (SetLoggingState_bool b) w).
    rewrite SetLoggingState_bool_exec. apply Hsame.
  - (* SetLoggingState(LogLevel) *)
    fold (exec (SetLoggingState_level l) w).
    rewrite SetLoggingState_level_exec. apply Hsame.
  - (* GetLoggingState *)
    rewrite bind_ret_tt. apply Hsame.
  - (* Write *)
    fold (exec (Write l f a) w). rewrite Write_exec. apply Hsame.
  - (* Write with a node id *)
    fold (exec (Write_node l n f a) w). rewrite Write_node_exec. apply Hsame.
  - (* SetLogFileName *)
    fold (exec (SetLogFileName f) w). rewrite SetLogFileName_exec. apply Hsame.
Qed.

Lemma exec_then {A B} (m : M A) (k : M B) w :
  exec (m ;; k) w = exec k (exec m w).
Proof.
  unfold exec, bind. destruct (m w) as [[a w1] t1]. cbn [fst snd].
  destruct (k w1) as [[b w2] t2]. reflexivity.
Qed.

Lemma Writes_keep_state (cs : list call) (w : World) :
  forallb is_Write_call cs = true -> exec (perform_all cs) w = w.
Proof.
  induction cs as [|c rest IH]; intros Hcs; simpl.
  - reflexivity.
  - simpl in Hcs. apply andb_prop in Hcs. destruct Hcs as [Hc Hrest].
    rewrite exec_then.
    assert (Hone : exec (perform c) w = w).
    { destruct c; try discriminate Hc; simpl.
      - apply Write_exec.
      - apply Write_node_exec. }
    rewrite Hone. apply IH, Hrest.
Qed.

(** C7: two appending registrations put [sinkA] and then [sinkB] behind the
    sinks already there, whether or not either is registered already; with
    an instance in place and logging enabled, a [Write] that follows (either
    overload, after any number of other [Write]s) calls the sinks in vector
    order, hence [sinkA] before [sinkB]; and no call of the interface
    reorders the vector or drops single entries from it. *)
Theorem fan_out_is_insertion_order :
  forall (w : World) (sinkA sinkB : addr),
    both_appended sinkA sinkB w =
      mkWorld (s_instance w) (m_pImpls w ++ [sinkA; sinkB]) (s_dologging w)
              (brk w) /\
    (forall (this : Log) (earlier : list call) (level : LogLevel)
            (nodeId : byte) (format : string) (args : va_list),
        s_instance w = Some this -> s_dologging w = true ->
        forallb is_Write_call earlier = true ->
        filter is_Impl_Write
          (emitted (Write level format args)
                   (exec (perform_all earlier) (both_appended sinkA sinkB w))) =
          map (fun it => Impl_Write it level x00 format args) (m_pImpls w)
          ++ [Impl_Write sinkA level x00 format args;
              Impl_Write sinkB level x00 format args] /\
        filter is_Impl_Write
          (emitted (Write_node level nodeId format args)
                   (exec (perform_all earlier) (both_appended sinkA sinkB w))) =
          map (fun it => Impl_Write it level nodeId format args) (m_pImpls w)
          ++ [Impl_Write sinkA level nodeId format args;
              Impl_Write sinkB level nodeId format args]) /\
    (forall c : call,
        keeps_order (m_pImpls w) (m_pImpls (exec (perform c) w))
                    (emitted (perform c) w)).
Proof.
  intros w sinkA sinkB.
  assert (Hreg : both_appended sinkA sinkB w =
                 mkWorld (s_instance w) (m_pImpls w ++ [sinkA; sinkB])
                         (s_dologging w) (brk w)).
  { unfold both_appended, exec. rewrite !SetLoggingClass_append. cbn.
    rewrite <- app_assoc. reflexivity. }
  split; [exact Hreg|]. split.
  - intros this earlier level nodeId format args Hi Hd Hearlier.
    rewrite (Writes_keep_state earlier _ Hearlier), Hreg.
    set (w2 := mkWorld (s_instance w) (m_pImpls w ++ [sinkA; sinkB])
                       (s_dologging w) (brk w)).
    split.
    + rewrite (Write_reaches_each_sink level format args w2 this Hi Hd).
      apply map_app.
    + rewrite (Write_node_reaches_each_sink level nodeId format args w2 this
                 Hi Hd).
      apply map_app.
  - intros c. apply perform_keeps_order.
Qed.

Lemma fan_out_is_insertion_order_witness :
  both_appended 7 7 created = mkWorld (Some (mkLog 0)) [1; 7; 7] true 2 /\
  filter is_Impl_Write
    (emitted (Write LogLevel_Info "ready" [])
       (exec (perform_all [Call_Write_node LogLevel_Debug x02 "probe" []])
             (both_appended 8 9 created))) =
    [Impl_Write 1 LogLevel_Info x00 "ready" [];
     Impl_Write 8 LogLevel_Info x00 "ready" [];
     Impl_Write 9 LogLevel_Info x00 "ready" []].
Proof.
  destruct (fan_out_is_insertion_order created 7 7) as (Hreg & _ & _).
  split; [exact Hreg|].
  destruct (fan_out_is_insertion_order created 8 9) as (_ & Hwrite & _).
  destruct (Hwrite (mkLog 0) [Call_Write_node LogLevel_Debug x02 "probe" []]
              LogLevel_Info x00 "ready" [] eq_refl eq_refl eq_refl)
    as (Hw & _).
  exact Hw.
Defined.

(** ** SetLoggingState(LogLevel) without an instance or without sinks *)

(** C10: when no instance exists, or the sink vector is empty,
    [SetLoggingState(saveLevel)] still sets the enabled flag to
    [saveLevel > LogLevel_Always], changes nothing else and calls nothing, so
    no sink is told the level; the flag and the sinks' own levels can then
    differ: after [SetLoggingState(Debug)] at program start, [Create] builds
    its default sink with the level passed to [Create] and a sink registered
    by hand is added as it is, and neither is ever handed [Debug]. *)
Theorem SetLoggingState_level_flag_only :
  (forall (w : World) (saveLevel : LogLevel),
      s_instance w = None \/ m_pImpls w = [] ->
      SetLoggingState_level saveLevel w =
        (tt,
         mkWorld (s_instance w) (m_pImpls w)
                 (LogLevel_value LogLevel_Always <? LogLevel_value saveLevel)%Z
                 (brk w),
         [])) /\
  (SetLoggingState_level LogLevel_Debug ;;
   Create "ozw.log" false true LogLevel_Warning) startup =
    (Some (mkLog 0), mkWorld (Some (mkLog 0)) [1] true 2,
     [Mutex_new 0; LogImpl_new 1 "ozw.log" false true LogLevel_Warning]) /\
  (SetLoggingState_level LogLevel_Debug ;; SetLoggingClass 7 true) startup =
    (true, mkWorld None [7] true 0, []).
Proof.
  split; [|split; reflexivity].
  intros w saveLevel H.
  rewrite SetLoggingState_level_run. cbv zeta.
  fold (LogLevel_gtb saveLevel LogLevel_Always).
  set (on := LogLevel_gtb saveLevel LogLevel_Always).
  assert (Hprop : match s_instance w with
                  | Some this =>
                      if on && (0 <? List.length (m_pImpls w))%nat
                      then Mutex_Lock (m_logMutex this)
                             :: map (fun it => Impl_SetLoggingState it saveLevel)
                                    (m_pImpls w)
                             ++ [Mutex_Unlock (m_logMutex this)]
                      else []
                  | None => []
                  end = []).
  { destruct H as [H|H]; rewrite H; [reflexivity|].
    destruct (s_instance w); [|reflexivity].
    simpl. rewrite andb_false_r. reflexivity. }
  rewrite Hprop.
  destruct (negb (s_dologging w) && on) eqn:Hedge; [|reflexivity].
  apply andb_prop in Hedge. destruct Hedge as [_ Hon].
  unfold emitted. rewrite Write_off; [reflexivity|].
  destruct H as [H|H]; [left | right; right]; exact H.
Qed.

Lemma SetLoggingState_level_flag_only_witness :
  (s_instance preregistered = None \/ m_pImpls preregistered = []) /\
  SetLoggingState_level LogLevel_Info preregistered =
    (tt, mkWorld None [7] true 0, []).
Proof.
  destruct SetLoggingState_level_flag_only as (Hflag & _ & _).
  assert (H : s_instance preregistered = None \/ m_pImpls preregistered = [])
    by (left; reflexivity).
  split; [exact H|].
  exact (Hflag preregistered LogLevel_Info H).
Defined.

(** * Further properties of the code *)

(** ** The guard shared by the fan-out functions *)

Lemma active_or_not w :
  (exists this,
      s_instance w = Some this /\ s_dologging w = true /\ m_pImpls w <> []) \/
  (s_instance w = None \/ s_dologging w = false \/ m_pImpls w = []).
Proof.
  destruct (s_instance w) as [this|]; [|right; left; reflexivity].
  destruct (s_dologging w); [|right; right; left; reflexivity].
  destruct (m_pImpls w) as [|p rest]; [right; right; right; reflexivity|].
  left. exists this. repeat split. discriminate.
Qed.

Lemma SetLogFileName_off filename w :
  s_instance w = None \/ s_dologging w = false \/ m_pImpls w = [] ->
  SetLogFileName filename w = (tt, w, []).
Proof. apply when_active_off. Qed.

Lemma SetLogFileName_on filename w [this] :
  s_instance w = Some this -> s_dologging w = true -> m_pImpls w <> [] ->
  SetLogFileName filename w =
  (tt, w,
   Mutex_Lock (m_logMutex this)
     :: map (fun it => Impl_SetLogFileName it filename) (m_pImpls w)
     ++ [Mutex_Unlock (m_logMutex this)]).
Proof.
  intros Hi Hd Hl. unfold SetLogFileName.
  rewrite (when_active_on _ _ Hi Hd Hl).
  apply (locked_fan_out_run (fun it => Impl_SetLogFileName it filename)).
Qed.

Lemma LogLevel_neqb_Internal level :
  level <> LogLevel_Internal -> LogLevel_neqb level LogLevel_Internal = true.
Proof.
  intros H. destruct level; try reflexivity. contradiction H. reflexivity.
Qed.

(** ** SetLogFileName *)

(** X1: a new file name given while no instance exists, or while logging is
    disabled, or while no sink is registered, is dropped: the call changes
    nothing and calls nothing, and the name is not handed on when logging is
    switched on afterwards. *)
Theorem SetLogFileName_dropped_when_inactive :
  forall (w : World) (filename : string),
    s_instance w = None \/ s_dologging w = false \/ m_pImpls w = [] ->
    SetLogFileName filename w = (tt, w, []) /\
    (SetLogFileName filename ;; SetLoggingState_bool true) w =
      SetLoggingState_bool true w.
Proof.
  intros w filename H.
  pose proof (SetLogFileName_off filename w H) as Hoff.
  split; [exact Hoff|].
  destruct (SetLoggingState_bool true w) as [[u w'] t] eqn:Hon.
  exact (bind_run _ _ _ Hoff Hon).
Qed.

Lemma SetLogFileName_dropped_when_inactive_witness :
  SetLogFileName "new.log" paused = (tt, paused, []) /\
  (SetLogFileName "new.log" ;; SetLoggingState_bool true) paused =
    (tt, two_sinks,
     [Mutex_Lock 0; Impl_Write 1 LogLevel_Always x00 Logging_started [];
      Impl_Write 7 LogLevel_Always x00 Logging_started []; Mutex_Unlock 0]).
Proof.
  apply (SetLogFileName_dropped_when_inactive paused "new.log").
  right. left. reflexivity.
Defined.

(** X2: with an instance, logging enabled and at least one sink,
    [SetLogFileName] locks the mutex, hands the name to every sink from
    first to last, unlocks, and leaves the state as it was. *)
Theorem SetLogFileName_fans_out :
  forall (w : World) (this : Log) (filename : string),
    s_instance w = Some this -> s_dologging w = true -> m_pImpls w <> [] ->
    SetLogFileName filename w =
      (tt, w,
       Mutex_Lock (m_logMutex this)
         :: map (fun it => Impl_SetLogFileName it filename) (m_pImpls w)
         ++ [Mutex_Unlock (m_logMutex this)]).
Proof.
  intros w this filename Hi Hd Hl. apply SetLogFileName_on; assumption.
Qed.

Lemma SetLogFileName_fans_out_witness :
  SetLogFileName "new.log" two_sinks =
    (tt, two_sinks,
     [Mutex_Lock 0; Impl_SetLogFileName 1 "new.log";
      Impl_SetLogFileName 7 "new.log"; Mutex_Unlock 0]).
Proof.
  apply (SetLogFileName_fans_out two_sinks (mkLog 0) "new.log").
  - reflexivity.
  - reflexivity.
  - discriminate.
Defined.

(** ** The constructor and sinks registered ahead of it *)

(** X3: when no instance exists and a sink is registered already, [Create]
    builds the instance and its mutex only: no default sink is constructed,
    the file name, the two flags and the save level passed to it are not
    used, and the registered sinks stay as they are, in order. *)
Theorem Create_keeps_preregistered :
  forall (w : World) (filename : string) (bAppend bConsoleOutput : bool)
         (saveLevel : LogLevel),
    s_instance w = None -> m_pImpls w <> [] ->
    Create filename bAppend bConsoleOutput saveLevel w =
      (Some (mkLog (brk w)),
       mkWorld (Some (mkLog (brk w))) (m_pImpls w) true (S (brk w)),
       [Mutex_new (brk w)]).
Proof.
  intros w filename bAppend bConsoleOutput saveLevel Hi Hl.
  rewrite (Create_absent filename bAppend bConsoleOutput saveLevel w Hi).
  destruct (m_pImpls w) as [|p rest]; [contradiction Hl; reflexivity|].
  reflexivity.
Qed.

Lemma Create_keeps_preregistered_witness :
  Create "ozw.log" false true LogLevel_Detail preregistered =
    (Some (mkLog 0), mkWorld (Some (mkLog 0)) [7] true 1, [Mutex_new 0]).
Proof.
  apply (Create_keeps_preregistered preregistered "ozw.log" false true
           LogLevel_Detail).
  - reflexivity.
  - discriminate.
Defined.

(** ** Destroy with an instance *)

(** X5: with an instance in place, [Destroy] releases the instance's mutex,
    deletes every registered sink from first to last, and leaves no instance
    and an empty vector, the enabled flag being kept; a [Write] of either
    overload or a [SetLogFileName] that follows does nothing. *)
Theorem Destroy_tears_down :
  forall (w : World) (this : Log),
    s_instance w = Some this ->
    Destroy w =
      (tt, mkWorld None [] (s_dologging w) (brk w),
       Mutex_Release (m_logMutex this) :: map Impl_delete (m_pImpls w)) /\
    forall (level : LogLevel) (nodeId : byte) (format filename : string)
           (args : va_list),
      Write level format args (exec Destroy w) = (tt, exec Destroy w, []) /\
      Write_node level nodeId format args (exec Destroy w) =
        (tt, exec Destroy w, []) /\
      SetLogFileName filename (exec Destroy w) = (tt, exec Destroy w, []).
Proof.
  intros w this Hi. split; [apply Destroy_present, Hi|].
  intros level nodeId format filename args.
  assert (Hnone : s_instance (exec Destroy w) = None).
  { unfold exec. rewrite (Destroy_present w Hi). reflexivity. }
  split; [apply Write_off; left; exact Hnone|].
  split; [apply Write_node_off; left; exact Hnone|].
  apply SetLogFileName_off. left. exact Hnone.
Qed.

Lemma Destroy_tears_down_witness :
  Destroy two_sinks =
    (tt, mkWorld None [] true 2, [Mutex_Release 0; Impl_delete 1; Impl_delete 7]) /\
  Write LogLevel_Error "late" [] (exec Destroy two_sinks) =
    (tt, mkWorld None [] true 2, []).
Proof.
  destruct (Destroy_tears_down two_sinks (mkLog 0) eq_refl) as [Hrun Hafter].
  split; [exact Hrun|].
  destruct (Hafter LogLevel_Error x00 "late" "late" []) as (Hw & _ & _).
  exact Hw.
Defined.

(** ** Levels that switch logging off *)

(** X7: [SetLoggingState] with a level that is not above Always (Invalid,
    None or Always) clears the enabled flag and does nothing else, whatever
    the state: no sink is handed the level, although an instance and sinks
    may be there, and nothing is written. *)
Theorem SetLoggingState_level_off :
  forall (w : World) (saveLevel : LogLevel),
    (LogLevel_value saveLevel <= LogLevel_value LogLevel_Always)%Z ->
    SetLoggingState_level saveLevel w =
      (tt, mkWorld (s_instance w) (m_pImpls w) false (brk w), []).
Proof.
  intros w saveLevel Hle.
  assert (Hoff : LogLevel_gtb saveLevel LogLevel_Always = false).
  { unfold LogLevel_gtb. apply Z.ltb_ge. exact Hle. }
  rewrite SetLoggingState_level_run. cbv zeta. rewrite Hoff.
  rewrite andb_false_r. cbn [andb].
  destruct (s_instance w); reflexivity.
Qed.

Lemma SetLoggingState_level_off_witness :
  SetLoggingState_level LogLevel_None two_sinks = (tt, paused, []).
Proof.
  apply (SetLoggingState_level_off two_sinks LogLevel_None).
  vm_compute. discriminate.
Defined.

(** ** The two Write overloads *)

(** X10: at every level but Internal, [Write] without a node id does what
    [Write] with node id 0 does, in every state. *)
Theorem Write_is_Write_node_zero :
  forall (w : World) (level : LogLevel) (format : string) (args : va_list),
    level <> LogLevel_Internal ->
    Write level format args w = Write_node level x00 format args w.
Proof.
  intros w level format args Hlevel.
  destruct (active_or_not w) as [(this & Hi & Hd & Hl)|Hoff].
  - rewrite (Write_on level format args w Hi Hd Hl).
    rewrite (Write_node_on level x00 format args w Hi Hd Hl).
    rewrite (LogLevel_neqb_Internal level Hlevel). reflexivity.
  - rewrite Write_off, Write_node_off by exact Hoff. reflexivity.
Qed.

Lemma Write_is_Write_node_zero_witness :
  Write LogLevel_Warning "retry %d" [VInt 2] two_sinks =
  Write_node LogLevel_Warning x00 "retry %d" [VInt 2] two_sinks.
Proof.
  apply (Write_is_Write_node_zero two_sinks LogLevel_Warning "retry %d" [VInt 2]).
  discriminate.
Defined.

(** ** Repeating a call, reading the flag back *)

Lemma GetLoggingState_run w : GetLoggingState w = (s_dologging w, w, []).
Proof. reflexivity. Qed.

(** X8: a [SetLoggingState] call repeated with the same argument finds the
    flag as it leaves it: the second [SetLoggingState(bool)] changes nothing
    and calls nothing, and the second [SetLoggingState(LogLevel)] changes
    nothing and writes no message, so "Logging started" is not sent twice. *)
Theorem SetLoggingState_repeated :
  forall (w : World) (dologging : bool) (saveLevel : LogLevel),
    SetLoggingState_bool dologging (exec (SetLoggingState_bool dologging) w) =
      (tt, exec (SetLoggingState_bool dologging) w, []) /\
    exec (SetLoggingState_level saveLevel)
         (exec (SetLoggingState_level saveLevel) w) =
      exec (SetLoggingState_level saveLevel) w /\
    filter is_Impl_Write
      (emitted (SetLoggingState_level saveLevel)
               (exec (SetLoggingState_level saveLevel) w)) = [].
Proof.
  intros w dologging saveLevel. split; [|split].
  - rewrite SetLoggingState_bool_exec, SetLoggingState_bool_run.
    cbn [s_dologging s_instance m_pImpls brk].
    destruct dologging; reflexivity.
  - rewrite !SetLoggingState_level_exec. reflexivity.
  - rewrite SetLoggingState_level_exec. unfold emitted.
    rewrite SetLoggingState_level_run.
    cbn [s_dologging s_instance m_pImpls brk].
    destruct (LogLevel_gtb saveLevel LogLevel_Always); cbn [negb andb snd].
    + destruct (s_instance w) as [this|]; [|reflexivity].
      destruct (0 <? List.length (m_pImpls w))%nat; [|reflexivity].
      apply propagate_has_no_Write.
    + destruct (s_instance w); reflexivity.
Qed.

(** ** Which sinks a registration deletes *)

(** X6: [SetLoggingClass] deletes the very sink it is given exactly when
    [Append] is false and that sink is in the vector already. *)
Theorem SetLoggingClass_deletes_its_argument :
  forall (w : World) (LogClass : addr) (Append : bool),
    In (Impl_delete LogClass) (emitted (SetLoggingClass LogClass Append) w) <->
    Append = false /\ In LogClass (m_pImpls w).
Proof.
  intros w LogClass Append. unfold emitted. destruct Append.
  - rewrite SetLoggingClass_append. cbn [snd]. split.
    + intros [].
    + intros [H _]. discriminate H.
  - rewrite SetLoggingClass_replace. cbn [snd]. rewrite in_map_iff. split.
    + intros (p & Hp & Hin). injection Hp as ->. split; [reflexivity | exact Hin].
    + intros [_ Hin]. exists LogClass. split; [reflexivity | exact Hin].
Qed.

Example SetLoggingClass_deletes_then_keeps :
  SetLoggingClass 7 false two_sinks =
    (true, mkWorld (Some (mkLog 0)) [7] true 2, [Impl_delete 1; Impl_delete 7]).
Proof. reflexivity. Qed.

(** ** Create as Destroy followed by Create *)

(** X14: in every state, [Create] does what [Destroy] followed by [Create]
    does: same result, same state, same calls in the same order. *)
Theorem Create_is_Destroy_then_Create :
  forall (w : World) (filename : string) (bAppend bConsoleOutput : bool)
         (saveLevel : LogLevel),
    Create filename bAppend bConsoleOutput saveLevel w =
    (Destroy ;; Create filename bAppend bConsoleOutput saveLevel) w.
Proof.
  intros w filename bAppend bConsoleOutput saveLevel. symmetry.
  destruct (s_instance w) as [old|] eqn:Hi.
  - rewrite (Create_present filename bAppend bConsoleOutput saveLevel w Hi).
    apply (bind_run _ _ _ (Destroy_present w Hi)).
    apply (Create_absent filename bAppend bConsoleOutput saveLevel
             (mkWorld None [] (s_dologging w) (brk w)) eq_refl).
  - destruct (Create filename bAppend bConsoleOutput saveLevel w)
      as [[r w'] t] eqn:Hc.
    exact (bind_run _ _ _ (Destroy_absent w Hi) Hc).
Qed.

(** ** An instance has a sink *)

Lemma perform_keeps_instance_has_sink (c : call) (w : World) :
  instance_has_sink w = true ->
  instance_has_sink (exec (perform c) w) = true.
Proof.
  intros Hinv.
  assert (Hflag : forall d,
    instance_has_sink (mkWorld (s_instance w) (m_pImpls w) d (brk w)) = true).
  { intros d. rewrite <- Hinv. reflexivity. }
  destruct c as [f a co l| |p a|b|l| |l f a|l n f a|f]; cbn [perform].
  - unfold exec. rewrite bind_ret_tt. cbn [fst snd]. unfold exec.
    destruct (s_instance w) as [old|] eqn:Hi.
    + rewrite (Create_present f a co l w Hi). reflexivity.
    + rewrite (Create_absent f a co l w Hi).
      destruct (m_pImpls w) as [|q rest]; reflexivity.
  - unfold instance_has_sink. rewrite Destroy_clears_instance. reflexivity.
  - unfold exec. rewrite bind_ret_tt. cbn [fst snd]. unfold exec.
    destruct a.
    + rewrite SetLoggingClass_append. cbn [fst snd].
      unfold instance_has_sink. cbn [s_instance m_pImpls].
      destruct (s_instance w); [|reflexivity].
      rewrite length_app. simpl. apply Nat.ltb_lt. lia.
    + rewrite SetLoggingClass_replace. cbn [fst snd].
      unfold instance_has_sink. cbn [s_instance m_pImpls].
      destruct (s_instance w); reflexivity.
  - rewrite SetLoggingState_bool_exec. apply Hflag.
  - rewrite SetLoggingState_level_exec. apply Hflag.
  - unfold exec. rewrite bind_ret_tt. exact Hinv.
  - rewrite Write_exec. exact Hinv.
  - rewrite Write_node_exec. exact Hinv.
  - rewrite SetLogFileName_exec. exact Hinv.
Qed.

Lemma perform_all_keeps_instance_has_sink (cs : list call) :
  forall w : World,
    instance_has_sink w = true ->
    instance_has_sink (exec (perform_all cs) w) = true.
Proof.
  induction cs as [|c rest IH]; intros w Hinv; simpl.
  - exact Hinv.
  - rewrite exec_then. apply IH, perform_keeps_instance_has_sink, Hinv.
Qed.

Example instance_has_sink_can_fail :
  instance_has_sink (mkWorld (Some (mkLog 0)) [] true 1) = false.
Proof. reflexivity. Qed.

(** X4: whatever calls are made from program start on, in whatever order,
    the state they lead to has at least one sink registered whenever it has
    an instance. *)
Theorem instance_always_has_sink :
  forall cs : list call,
    instance_has_sink (exec (perform_all cs) startup) = true.
Proof.
  intros cs. apply perform_all_keeps_instance_has_sink. reflexivity.
Qed.

(** ** What every call's trace looks like *)

Lemma emitted_then {A B} (m : M A) (k : M B) w :
  emitted (m ;; k) w = emitted m w ++ emitted k (exec m w).
Proof.
  unfold emitted, exec, bind. destruct (m w) as [[a w1] t1]. cbn [fst snd].
  destruct (k w1) as [[b w2] t2]. reflexivity.
Qed.

Lemma fan_outs_one_locked l m (g : addr -> event) :
  (forall it, lock_step (Some m) (g it) = Some (Some m)) ->
  (forall it, is_alloc_or_free (g it) = false) ->
  fan_outs l (Mutex_Lock m :: map g l ++ [Mutex_Unlock m]).
Proof.
  intros Hs Ha.
  rewrite <- (app_nil_r (Mutex_Lock m :: map g l ++ [Mutex_Unlock m])).
  apply fan_outs_locked; [exact Hs | exact Ha | constructor].
Qed.

Lemma fan_outs_app l t1 t2 :
  fan_outs l t1 -> fan_outs l t2 -> fan_outs l (t1 ++ t2).
Proof.
  intros H1 H2. induction H1 as [|m g t Hs Ha Ht IH|g t Hs Ha Ht IH].
  - exact H2.
  - rewrite <- app_assoc. apply fan_outs_locked; assumption.
  - rewrite <- app_assoc. apply fan_outs_Internal; assumption.
Qed.

Lemma Impl_Write_under_lock m level nodeId format args it :
  lock_step (Some m) (Impl_Write it level nodeId format args) = Some (Some m).
Proof.
  cbn [lock_step]. destruct (LogLevel_neqb level LogLevel_Internal); reflexivity.
Qed.

Lemma Write_fan_outs level format args w :
  fan_outs (m_pImpls w) (emitted (Write level format args) w).
Proof.
  unfold emitted.
  destruct (active_or_not w) as [(this & Hi & Hd & Hl)|Hoff].
  - rewrite (Write_on level format args w Hi Hd Hl). cbn [snd].
    apply fan_outs_one_locked; [|reflexivity].
    intros it. apply Impl_Write_under_lock.
  - rewrite (Write_off level format args w Hoff). constructor.
Qed.

Lemma Write_node_fan_outs level nodeId format args w :
  fan_outs (m_pImpls w) (emitted (Write_node level nodeId format args) w).
Proof.
  unfold emitted.
  destruct (active_or_not w) as [(this & Hi & Hd & Hl)|Hoff].
  - rewrite (Write_node_on level nodeId format args w Hi Hd Hl). cbn [snd].
    destruct (LogLevel_neqb level LogLevel_Internal) eqn:Hlevel.
    + apply fan_outs_one_locked; [|reflexivity].
      intros it. apply Impl_Write_under_lock.
    + cbn [app]. apply fan_outs_Internal; [| reflexivity | constructor].
      intros it. cbn [lock_step]. rewrite Hlevel. reflexivity.
  - rewrite (Write_node_off level nodeId format args w Hoff). constructor.
Qed.

Lemma SetLogFileName_fan_outs filename w :
  fan_outs (m_pImpls w) (emitted (SetLogFileName filename) w).
Proof.
  unfold emitted.
  destruct (active_or_not w) as [(this & Hi & Hd & Hl)|Hoff].
  - rewrite (SetLogFileName_on filename w Hi Hd Hl). cbn [snd].
    apply fan_outs_one_locked; reflexivity.
  - rewrite (SetLogFileName_off filename w Hoff). constructor.
Qed.

Lemma SetLoggingState_bool_fan_outs dologging w :
  fan_outs (m_pImpls w) (emitted (SetLoggingState_bool dologging) w).
Proof.
  unfold emitted. rewrite SetLoggingState_bool_run. cbv zeta.
  destruct (negb (s_dologging w) && dologging).
  - apply (Write_fan_outs LogLevel_Always Logging_started []
             (mkWorld (s_instance w) (m_pImpls w) dologging (brk w))).
  - constructor.
Qed.

Lemma SetLoggingState_level_fan_outs saveLevel w :
  fan_outs (m_pImpls w) (emitted (SetLoggingState_level saveLevel) w).
Proof.
  unfold emitted. rewrite SetLoggingState_level_run. cbv zeta.
  set (on := LogLevel_gtb saveLevel LogLevel_Always).
  assert (Hprop : fan_outs (m_pImpls w)
    match s_instance w with
    | Some this =>
        if on && (0 <? List.length (m_pImpls w))%nat
        then Mutex_Lock (m_logMutex this)
               :: map (fun it => Impl_SetLoggingState it saveLevel) (m_pImpls w)
               ++ [Mutex_Unlock (m_logMutex this)]
        else []
    | None => []
    end).
  { destruct (s_instance w) as [this|]; [|constructor].
    destruct (on && (0 <? List.length (m_pImpls w))%nat); [|constructor].
    apply fan_outs_one_locked; reflexivity. }
  destruct (negb (s_dologging w) && on); cbn [snd].
  - apply fan_outs_app; [exact Hprop|].
    apply (Write_fan_outs LogLevel_Always Logging_started []
             (mkWorld (s_instance w) (m_pImpls w) on (brk w))).
  - exact Hprop.
Qed.

(** The calls that are not lifecycle calls emit fan-outs only. *)
Lemma service_call_fan_outs (c : call) (w : World) :
  is_lifecycle_call c = false ->
  fan_outs (m_pImpls w) (emitted (perform c) w).
Proof.
  intros Hc.
  destruct c as [f a co l| |p a|b|l| |l f a|l n f a|f];
    try discriminate Hc; cbn [perform].
  - apply SetLoggingState_bool_fan_outs.
  - apply SetLoggingState_level_fan_outs.
  - constructor.
  - apply Write_fan_outs.
  - apply Write_node_fan_outs.
  - apply SetLogFileName_fan_outs.
Qed.

(** The lifecycle calls emit constructions and destructions only, and never
    a release after a construction of the same call. *)
Lemma lifecycle_call_trace (c : call) (w : World) :
  is_lifecycle_call c = true ->
  exists (released : list event) (deleted : list addr) (built : list event),
    emitted (perform c) w = released ++ map Impl_delete deleted ++ built /\
    (released = [] \/ exists m, released = [Mutex_Release m]) /\
    forallb (fun e => match e with
                      | Mutex_new _ | LogImpl_new _ _ _ _ _ => true
                      | _ => false
                      end) built = true.
Proof.
  intros Hc.
  destruct c as [f a co l| |p a|b|l| |l f a|l n f a|f];
    try discriminate Hc; cbn [perform].
  - rewrite emitted_then. cbn [emitted ret snd]. rewrite app_nil_r.
    unfold emitted.
    destruct (s_instance w) as [old|] eqn:Hi.
    + rewrite (Create_present f a co l w Hi). cbn [snd].
      exists [Mutex_Release (m_logMutex old)], (m_pImpls w),
             [Mutex_new (brk w); LogImpl_new (S (brk w)) f a co l].
      split; [reflexivity|]. split; [right; eexists; reflexivity | reflexivity].
    + rewrite (Create_absent f a co l w Hi).
      destruct (List.length (m_pImpls w) =? 0)%nat; cbn [snd].
      * exists [], [], [Mutex_new (brk w); LogImpl_new (S (brk w)) f a co l].
        split; [reflexivity|]. split; [left; reflexivity | reflexivity].
      * exists [], [], [Mutex_new (brk w)].
        split; [reflexivity|]. split; [left; reflexivity | reflexivity].
  - unfold emitted. destruct (s_instance w) as [this|] eqn:Hi.
    + rewrite (Destroy_present w Hi). cbn [snd].
      exists [Mutex_Release (m_logMutex this)], (m_pImpls w), [].
      split; [rewrite app_nil_r; reflexivity|].
      split; [right; eexists; reflexivity | reflexivity].
    + rewrite (Destroy_absent w Hi). exists [], [], [].
      split; [reflexivity|]. split; [left; reflexivity | reflexivity].
  - rewrite emitted_then. cbn [emitted ret snd]. rewrite app_nil_r.
    unfold emitted. destruct a.
    + rewrite SetLoggingClass_append. exists [], [], [].
      split; [reflexivity|]. split; [left; reflexivity | reflexivity].
    + rewrite SetLoggingClass_replace. cbn [snd].
      exists [], (m_pImpls w), [].
      split; [rewrite app_nil_r; reflexivity|].
      split; [left; reflexivity | reflexivity].
Qed.

(** ** Use of the mutex *)

Lemma lock_run_app held t1 t2 :
  lock_run held (t1 ++ t2) =
  match lock_run held t1 with
  | Some held' => lock_run held' t2
  | None => None
  end.
Proof.
  revert held. induction t1 as [|e t1 IH]; intros held; simpl.
  - reflexivity.
  - destruct (lock_step held e) as [held'|]; [apply IH | reflexivity].
Qed.

Lemma lock_run_map held (g : addr -> event) (l : list addr) :
  (forall it, lock_step held (g it) = Some held) ->
  lock_run held (map g l) = Some held.
Proof.
  intros Hg. induction l as [|p l IH]; simpl.
  - reflexivity.
  - rewrite Hg. exact IH.
Qed.

Lemma fan_outs_lock_run l t : fan_outs l t -> lock_run None t = Some None.
Proof.
  intros H. induction H as [|m g t Hs Ha Ht IH|g t Hs Ha Ht IH].
  - reflexivity.
  - rewrite lock_run_app. cbn [lock_run lock_step].
    rewrite lock_run_app, (lock_run_map (Some m) g l Hs).
    cbn [lock_run lock_step]. rewrite Nat.eqb_refl. exact IH.
  - rewrite lock_run_app, (lock_run_map None g l Hs). exact IH.
Qed.

Lemma fan_outs_build_nothing l t :
  fan_outs l t -> filter is_alloc_or_free t = [].
Proof.
  intros H. induction H as [|m g t Hs Ha Ht IH|g t Hs Ha Ht IH].
  - reflexivity.
  - rewrite filter_app, IH. cbn [filter is_alloc_or_free].
    rewrite filter_app, (filter_map_none is_alloc_or_free g l Ha). reflexivity.
  - rewrite filter_app, IH, (filter_map_none is_alloc_or_free g l Ha).
    reflexivity.
Qed.

Lemma built_lock_run (built : list event) :
  forallb (fun e => match e with
                    | Mutex_new _ | LogImpl_new _ _ _ _ _ => true
                    | _ => false
                    end) built = true ->
  lock_run None built = Some None /\
  filter is_lock_or_sink_method built = [].
Proof.
  induction built as [|e rest IH]; intros Hb; [split; reflexivity|].
  simpl in Hb. apply andb_prop in Hb. destruct Hb as [He Hrest].
  destruct (IH Hrest) as [IHrun IHfilter].
  destruct e; try discriminate He; simpl; split; assumption.
Qed.

Lemma perform_lock_run (c : call) (w : World) :
  lock_run None (emitted (perform c) w) = Some None.
Proof.
  destruct (is_lifecycle_call c) eqn:Hc.
  - destruct (lifecycle_call_trace c w Hc)
      as (released & deleted & built & Ht & Hrel & Hbuilt).
    rewrite Ht, lock_run_app.
    assert (Hr : lock_run None released = Some None).
    { destruct Hrel as [->|[m ->]]; reflexivity. }
    rewrite Hr, lock_run_app.
    rewrite (lock_run_map None Impl_delete deleted) by reflexivity.
    apply built_lock_run, Hbuilt.
  - apply (fan_outs_lock_run (m_pImpls w)), service_call_fan_outs, Hc.
Qed.

(** X11: in every run of calls, from every state, the mutex is locked only
    when free and unlocked by the call that locked it before that call
    returns; every sink is handed a level or a file name under the lock
    only, and a message of a level other than Internal under the lock only;
    the mutex is never released while locked. *)
Theorem calls_respect_the_mutex :
  forall (cs : list call) (w : World),
    lock_disciplined (emitted (perform_all cs) w) = true.
Proof.
  intros cs. unfold lock_disciplined.
  assert (Hrun : forall w, lock_run None (emitted (perform_all cs) w) = Some None).
  { induction cs as [|c rest IH]; intros w; simpl.
    - reflexivity.
    - rewrite emitted_then, lock_run_app, perform_lock_run. apply IH. }
  intros w. rewrite Hrun. reflexivity.
Qed.

Example lock_disciplined_samples :
  lock_disciplined [Impl_Write 1 LogLevel_Info x00 "x" []] = false /\
  lock_disciplined [Mutex_Lock 0; Mutex_Lock 0] = false /\
  lock_disciplined [Mutex_Lock 0; Impl_Write 1 LogLevel_Info x00 "x" []] = false /\
  lock_disciplined [Impl_Write 1 LogLevel_Internal x00 "x" []] = true.
Proof. repeat split. Qed.

(** X12: [Create], [Destroy] and [SetLoggingClass] never touch the mutex's
    lock and never call a sink's [Write], [SetLoggingState] or
    [SetLogFileName]; in particular [Create] switches logging on without a
    "Logging started" message. *)
Theorem lifecycle_calls_take_no_lock :
  forall (c : call) (w : World),
    is_lifecycle_call c = true ->
    filter is_lock_or_sink_method (emitted (perform c) w) = [].
Proof.
  intros c w Hc.
  destruct (lifecycle_call_trace c w Hc)
    as (released & deleted & built & Ht & Hrel & Hbuilt).
  rewrite Ht, !filter_app.
  rewrite (filter_map_none is_lock_or_sink_method Impl_delete deleted)
    by reflexivity.
  destruct (built_lock_run built Hbuilt) as [_ ->].
  destruct Hrel as [->|[m ->]]; reflexivity.
Qed.

Lemma lifecycle_calls_take_no_lock_witness :
  filter is_lock_or_sink_method
    (emitted (perform (Call_Create "second.log" true false LogLevel_Debug))
             paused) = [].
Proof.
  apply (lifecycle_calls_take_no_lock
           (Call_Create "second.log" true false LogLevel_Debug) paused).
  reflexivity.
Defined.

(** X13: a call other than [Create], [Destroy] and [SetLoggingClass]
    constructs nothing, deletes nothing and releases nothing, and leaves the
    instance pointer and the sink vector as they were; the enabled flag is
    the only thing it may change. *)
Theorem service_calls_keep_instance_and_sinks :
  forall (c : call) (w : World),
    is_lifecycle_call c = false ->
    filter is_alloc_or_free (emitted (perform c) w) = [] /\
    exists flag : bool,
      exec (perform c) w = mkWorld (s_instance w) (m_pImpls w) flag (brk w).
Proof.
  intros c w Hc. split.
  - apply (fan_outs_build_nothing (m_pImpls w)), service_call_fan_outs, Hc.
  - destruct c as [f a co l| |p a|b|l| |l f a|l n f a|f];
      try discriminate Hc; cbn [perform].
    + exists b. apply SetLoggingState_bool_exec.
    + eexists. apply SetLoggingState_level_exec.
    + exists (s_dologging w). unfold exec. rewrite bind_ret_tt.
      cbn [fst snd]. symmetry. apply World_eta.
    + exists (s_dologging w). rewrite Write_exec. symmetry. apply World_eta.
    + exists (s_dologging w). rewrite Write_node_exec. symmetry. apply World_eta.
    + exists (s_dologging w). rewrite SetLogFileName_exec. symmetry.
      apply World_eta.
Qed.

Lemma service_calls_keep_instance_and_sinks_witness :
  filter is_alloc_or_free
    (emitted (perform (Call_SetLoggingState_level LogLevel_Debug)) paused) = [] /\
  exists flag : bool,
    exec (perform (Call_SetLoggingState_level LogLevel_Debug)) paused =
    mkWorld (Some (mkLog 0)) [1; 7] flag 2.
Proof.
  apply (service_calls_keep_instance_and_sinks
           (Call_SetLoggingState_level LogLevel_Debug) paused).
  reflexivity.
Defined.

(** ** The enabled flag along a run of calls *)

Lemma perform_flag (c : call) (w : World) :
  s_dologging (exec (perform c) w) = flag_after (s_dologging w) c.
Proof.
  destruct c as [f a co l| |p a|b|l| |l f a|l n f a|f]; cbn [perform flag_after].
  - unfold exec. rewrite bind_ret_tt. cbn [fst snd]. unfold exec.
    destruct (s_instance w) as [old|] eqn:Hi.
    + rewrite (Create_present f a co l w Hi). reflexivity.
    + rewrite (Create_absent f a co l w Hi).
      destruct (List.length (m_pImpls w) =? 0)%nat; reflexivity.
  - unfold exec. destruct (s_instance w) as [this|] eqn:Hi.
    + rewrite (Destroy_present w Hi). reflexivity.
    + rewrite (Destroy_absent w Hi). reflexivity.
  - unfold exec. rewrite bind_ret_tt. cbn [fst snd]. unfold exec.
    destruct a.
    + rewrite SetLoggingClass_append. reflexivity.
    + rewrite SetLoggingClass_replace. reflexivity.
  - rewrite SetLoggingState_bool_exec. reflexivity.
  - rewrite SetLoggingState_level_exec. reflexivity.
  - unfold exec. rewrite bind_ret_tt. reflexivity.
  - rewrite Write_exec. reflexivity.
  - rewrite Write_node_exec. reflexivity.
  - rewrite SetLogFileName_exec. reflexivity.
Qed.

(** X9: after any run of calls, from any state, [GetLoggingState] answers
    with what the last [Create] or [SetLoggingState] of the run set: true
    for [Create], the argument for [SetLoggingState(bool)],
    [saveLevel > Always] for [SetLoggingState(LogLevel)], and the flag of the
    starting state if the run has none of them.  Whether an instance exists
    and which sinks are registered has no part in it, and [GetLoggingState]
    itself changes nothing and calls nothing. *)
Theorem GetLoggingState_follows_calls :
  forall (cs : list call) (w : World),
    GetLoggingState (exec (perform_all cs) w) =
      (fold_left flag_after cs (s_dologging w), exec (perform_all cs) w, []).
Proof.
  intros cs w. rewrite GetLoggingState_run. f_equal. f_equal.
  revert w. induction cs as [|c rest IH]; intros w; simpl.
  - reflexivity.
  - rewrite exec_then, IH, perform_flag. reflexivity.
Qed.

Example GetLoggingState_after_run :
  value GetLoggingState
    (exec (perform_all [Call_SetLoggingState_level LogLevel_None;
                        Call_Create "ozw.log" false true LogLevel_None;
                        Call_Destroy;
                        Call_Write LogLevel_Error "late" []])
          startup) = true.
Proof. reflexivity. Qed.

(** ** Runs of fan-out calls while inactive *)

Lemma perform_fan_out_off (c : call) (w : World) :
  is_fan_out_call c = true ->
  s_instance w = None \/ s_dologging w = false \/ m_pImpls w = [] ->
  perform c w = (tt, w, []).
Proof.
  intros Hc Hoff.
  destruct c as [f a co l| |p a|b|l| |l f a|l n f a|f];
    try discriminate Hc; cbn [perform].
  - apply Write_off, Hoff.
  - apply Write_node_off, Hoff.
  - apply SetLogFileName_off, Hoff.
Qed.

(** X15: a run of [Write] and [SetLogFileName] calls, however long, made
    while no instance exists, or while logging is disabled, or while no sink
    is registered, changes nothing and calls nothing. *)
Theorem fan_out_calls_silent_when_inactive :
  forall (cs : list call) (w : World),
    forallb is_fan_out_call cs = true ->
    s_instance w = None \/ s_dologging w = false \/ m_pImpls w = [] ->
    perform_all cs w = (tt, w, []).
Proof.
  intros cs w Hcs Hoff. induction cs as [|c rest IH]; simpl.
  - reflexivity.
  - simpl in Hcs. apply andb_prop in Hcs. destruct Hcs as [Hc Hrest].
    apply (bind_run _ _ _ (perform_fan_out_off c w Hc Hoff)).
    apply IH, Hrest.
Qed.

Lemma fan_out_calls_silent_when_inactive_witness :
  perform_all [Call_Write LogLevel_Error "node %d timed out" [VInt 5];
               Call_SetLogFileName "new.log";
               Call_Write_node LogLevel_Internal x02 "probe" []] paused =
    (tt, paused, []).
Proof.
  apply (fan_out_calls_silent_when_inactive
           [Call_Write LogLevel_Error "node %d timed out" [VInt 5];
            Call_SetLogFileName "new.log";
            Call_Write_node LogLevel_Internal x02 "probe" []] paused).
  - reflexivity.
  - right. left. reflexivity.
Defined.
